(** * OpenStack route reconciliation (openstack_routes.go)

    A shallow embedding of pkg/cloudprovider/providers/openstack/openstack_routes.go
    and the properties of ListRoutes, CreateRoute and DeleteRoute.

    Remote calls are computations over an explicit [World]: the router and
    port collections held by the network service, a fault schedule that
    decides which request fails, and a journal of the write requests and
    warnings issued.  Go slices that share a backing array are modelled by
    updating every alias of the array. *)

From Stdlib Require Import Ascii String List Bool Arith ZArith Lia Permutation.
From stdpp Require Import base option list strings gmap.

Local Open Scope Z_scope.
Local Open Scope nat_scope.
Local Open Scope string_scope.
Local Open Scope list_scope.

(** ** Errors and results *)

(** The error values the file returns: its own sentinel [errNoRouterID], the
    package sentinels [ErrNoAddressFound] and [ErrNotFound], and whatever a
    remote call reports, identified by a code. *)
Inductive error : Type :=
| errNoRouterID
| ErrNoAddressFound
| ErrNotFound
| ErrRemote (code : nat).

(** A Go [(T, error)] pair: exactly one of the two is meaningful. *)
Inductive result (A : Type) : Type :=
| Ok (a : A)
| Err (e : error).
Arguments Ok {A} a.
Arguments Err {A} e.

(** ** Data, one module per Go package *)

Definition NodeName := string.

Module v1.
Definition NodeAddressType := string.
Definition NodeInternalIP : NodeAddressType := "InternalIP".
Definition NodeExternalIP : NodeAddressType := "ExternalIP".
Record NodeAddress := { Type_ : NodeAddressType; Address : string }.
End v1.

Module routers.
Record Route := { NextHop : string; DestinationCIDR : string }.
Record Router := { ID : string; Routes : list Route }.
End routers.

Module neutronports.
Record AddressPair := { IPAddress : string }.
Record Port := { ID : string; AllowedAddressPairs : list AddressPair }.
End neutronports.

Module cloudprovider.
Record Route := {
  Name : string;
  TargetNode : NodeName;
  DestinationCIDR : string;
  Blackhole : bool
}.
End cloudprovider.

Module servers.
Record Server := { ID : string; Name : string }.
End servers.

Module attachinterfaces.
Record FixedIP := { IPAddress : string }.
Record Interface := { PortID : string; FixedIPs : list FixedIP }.
End attachinterfaces.

Record RouterOpts := { RouterID : string }.

(** ** The remote control plane *)

(** What the journal records: every write request with the collection it
    carried and its outcome ([None] is success), and every warning logged. *)
Inductive Event : Type :=
| RouterUpdate (id : string) (routes : list routers.Route) (outcome : option error)
| PortUpdate (id : string) (pairs : list neutronports.AddressPair) (outcome : option error)
| Warning (msg : string) (e : error).

Record World := {
  routerTable : gmap string (list routers.Route);
  portFilters : gmap string (list neutronports.AddressPair);
  faults : nat -> option error;
  served : nat;
  journal : list Event
}.

(** The compute service as seen through its client: the collaborators of
    this file that only read. *)
Record Compute := {
  listServers : result (list servers.Server);
  getAddressesByName : NodeName -> result (list v1.NodeAddress);
  getServerByName : NodeName -> bool -> result servers.Server;
  getAttachedInterfacesByID : string -> result (list attachinterfaces.Interface)
}.

(** ** A state and error monad *)

Definition M (S A : Type) : Type := S -> result A * S.

Definition ret {S A} (a : A) : M S A := fun s => (Ok a, s).
Definition throw {S A} (e : error) : M S A := fun s => (Err e, s).
Definition bind {S A B} (c : M S A) (k : A -> M S B) : M S B :=
  fun s => match c s with
           | (Ok a, s') => k a s'
           | (Err e, s') => (Err e, s')
           end.
Definition lift {S A} (r : result A) : M S A := fun s => (r, s).

Notation "'let*' x ':=' c 'in' k" := (bind c (fun x => k))
  (at level 10, x name, c at level 100, k at level 200).

(** ** Libraries the file calls *)

(** The address functions of Go's net package and of govalidator that
    CreateRoute and DeleteRoute call.  [ParseCIDR] gives the IP of a CIDR,
    [None] standing for the nil IP it returns together with an error;
    [IPString] prints an IP that is not nil. *)
Class NetLib := {
  IP : Type;
  ParseCIDR : string -> option IP;
  IPString : IP -> string;
  IsIPv4 : string -> bool;
  IsIPv6 : string -> bool
}.

(** [IP.String()]: a nil IP prints as ["<nil>"]. *)
Definition IP_String `{NetLib} (ip : option IP) : string :=
  match ip with
  | Some i => IPString i
  | None => "<nil>"
  end.

(** *** Requests to the network service *)

Definition tick (w : World) : World :=
  {| routerTable := routerTable w; portFilters := portFilters w;
     faults := faults w; served := S (served w); journal := journal w |}.

Definition record (ev : Event) (w : World) : World :=
  {| routerTable := routerTable w; portFilters := portFilters w;
     faults := faults w; served := served w; journal := journal w ++ [ev] |}.

Definition setRoutes (id : string) (rs : list routers.Route) (w : World) : World :=
  {| routerTable := <[id := rs]> (routerTable w); portFilters := portFilters w;
     faults := faults w; served := served w; journal := journal w |}.

Definition setPairs (id : string) (ps : list neutronports.AddressPair) (w : World) : World :=
  {| routerTable := routerTable w; portFilters := <[id := ps]> (portFilters w);
     faults := faults w; served := served w; journal := journal w |}.

(** The outcome of the request the service is about to serve: the scheduled
    fault if there is one, else 404 when the resource is absent. *)
Definition outcome {A} (w : World) (resource : option A) : option error :=
  match faults w (served w) with
  | Some e => Some e
  | None => match resource with
            | Some _ => None
            | None => Some (ErrRemote 404)
            end
  end.

(** Modelled from the spec: GetRouter(routerID) -> RouterState{ID, Routes[]},
    the call [routers.Get(...).Extract()] of gophercloud. *)
Definition routers_Get (id : string) : M World routers.Router := fun w =>
  match outcome w (routerTable w !! id), routerTable w !! id with
  | None, Some rs => (Ok {| routers.ID := id; routers.Routes := rs |}, tick w)
  | Some e, _ => (Err e, tick w)
  | None, None => (Err (ErrRemote 404), tick w)
  end.

(** Modelled from the spec: UpdateRouter(routerID, Routes[]) -> RouterState,
    whole-collection replace; the call [routers.Update(...).Extract()]. *)
Definition routers_Update (id : string) (newRoutes : list routers.Route)
  : M World routers.Router := fun w =>
  let o := outcome w (routerTable w !! id) in
  let w1 := record (RouterUpdate id newRoutes o) (tick w) in
  match o with
  | Some e => (Err e, w1)
  | None => (Ok {| routers.ID := id; routers.Routes := newRoutes |},
             setRoutes id newRoutes w1)
  end.

(** Modelled from the spec: GetPort(portID) -> PortState{ID, AddressFilters[]},
    the call [neutronports.Get(...).Extract()], whose result is a pointer. *)
Definition neutronports_Get (id : string) : M World (option neutronports.Port) := fun w =>
  match outcome w (portFilters w !! id), portFilters w !! id with
  | None, Some ps =>
      (Ok (Some {| neutronports.ID := id; neutronports.AllowedAddressPairs := ps |}), tick w)
  | Some e, _ => (Err e, tick w)
  | None, None => (Err (ErrRemote 404), tick w)
  end.

(** Modelled from the spec: UpdatePort(portID, AddressFilters[]) -> PortState,
    whole-collection replace; the call [neutronports.Update(...).Extract()]. *)
Definition neutronports_Update (id : string) (newPairs : list neutronports.AddressPair)
  : M World neutronports.Port := fun w =>
  let o := outcome w (portFilters w !! id) in
  let w1 := record (PortUpdate id newPairs o) (tick w) in
  match o with
  | Some e => (Err e, w1)
  | None => (Ok {| neutronports.ID := id; neutronports.AllowedAddressPairs := newPairs |},
             setPairs id newPairs w1)
  end.

(** [glog.Warning]. *)
Definition glog_Warning (msg : string) (e : error) : M World unit :=
  fun w => (Ok tt, record (Warning msg e) w).

(** *** The compensation switch and Go's defer *)

(** Modelled from the spec: the call-scoped compensation stack of section 4.4;
    newCaller, call and disarm are defined elsewhere in the package.  The
    switch is armed when created, [call] runs an action only while it is
    armed, and [disarm] turns it off for good. *)
Definition caller := bool.
Definition newCaller : caller := true.
Definition disarm (c : caller) : caller := false.
Definition call (c : caller) (f : M World unit) : M World unit :=
  if c then f else ret tt.

(** The frame of one call of CreateRoute or DeleteRoute: the cell that
    [onFailure] points to and the deferred calls, most recent first.  A
    deferred [onFailure.call(unwind)] reads the cell when it runs. *)
Record Frame := {
  onFailure : caller;
  deferred : list (caller -> M World unit)
}.

Definition Body (A : Type) : Type := M (Frame * World) A.

Definition remote {A} (c : M World A) : Body A :=
  fun s => let (r, w') := c (snd s) in (r, (fst s, w')).

Definition defer (d : caller -> M World unit) : Body unit :=
  fun s => (Ok tt, ({| onFailure := onFailure (fst s);
                       deferred := d :: deferred (fst s) |}, snd s)).

Definition onFailure_disarm : Body unit :=
  fun s => (Ok tt, ({| onFailure := disarm (onFailure (fst s));
                       deferred := deferred (fst s) |}, snd s)).

(** Deferred calls run last in, first out; they return nothing. *)
Fixpoint runDeferred (c : caller) (ds : list (caller -> M World unit)) (w : World) : World :=
  match ds with
  | [] => w
  | d :: ds' => runDeferred c ds' (snd (d c w))
  end.

(** A Go function whose first statement is [onFailure := newCaller()]: the
    body runs, then the deferred calls, and the body's result is returned. *)
Definition newFrame : Frame := {| onFailure := newCaller; deferred := [] |}.

Definition goFunc {A} (body : Body A) : M World A := fun w =>
  let (res, s) := body (newFrame, w) in
  (res, runDeferred (onFailure (fst s)) (deferred (fst s)) (snd s)).

(** ** The file *)

(** Routes implements the cloudprovider.Routes for OpenStack clouds.  The
    network client is the [World] the computations run on. *)
Record Routes := {
  compute : Compute;
  opts : RouterOpts
}.

(** NewRoutes creates a new instance of Routes. *)
Definition NewRoutes (compute : Compute) (opts : RouterOpts) : result Routes :=
  if String.eqb (RouterID opts) "" then Err errNoRouterID
  else Ok {| compute := compute; opts := opts |}.

(** Modelled from the spec: ListInstances(filter) -> sequence of Instance;
    foreachServer hands every server to the handler until the handler stops
    the walk or fails. *)
Fixpoint eachServer {S} (handler : servers.Server -> S -> result (bool * S))
    (srvs : list servers.Server) (s : S) : result S :=
  match srvs with
  | [] => Ok s
  | srv :: rest =>
      match handler srv s with
      | Err e => Err e
      | Ok (true, s') => eachServer handler rest s'
      | Ok (false, s') => Ok s'
      end
  end.

Definition foreachServer {S} (compute : Compute)
    (handler : servers.Server -> S -> result (bool * S)) (s : S) : result S :=
  match listServers compute with
  | Err e => Err e
  | Ok srvs => eachServer handler srvs s
  end.

Section ListRoutes.
(** The two helpers of the package that read a server record. *)
Variable nodeAddresses : servers.Server -> result (list v1.NodeAddress).
Variable mapServerToNodeName : servers.Server -> NodeName.

(** The body of the closure given to foreachServer (lines 63-75); the map
    it captures is passed through. *)
Definition indexServer (srv : servers.Server) (nodeNamesByAddr : gmap string NodeName)
  : result (bool * gmap string NodeName) :=
  match nodeAddresses srv with
  | Err e => Err e
  | Ok addrs =>
      let name := mapServerToNodeName srv in
      Ok (true, fold_left (fun m addr => <[v1.Address addr := name]> m) addrs nodeNamesByAddr)
  end.

(** One iteration of the loop of lines 86-95. *)
Definition routeOf (nodeNamesByAddr : gmap string NodeName) (item : routers.Route)
  : cloudprovider.Route :=
  let (nodeName, foundNode) :=
    match nodeNamesByAddr !! routers.NextHop item with
    | Some n => (n, true)
    | None => ("", false)
    end in
  {| cloudprovider.Name := routers.DestinationCIDR item;
     cloudprovider.TargetNode := nodeName;
     cloudprovider.Blackhole := negb foundNode;
     cloudprovider.DestinationCIDR := routers.DestinationCIDR item |}.

(** ListRoutes lists all managed routes that belong to the specified clusterName. *)
Definition ListRoutes (r : Routes) (clusterName : string)
  : M World (list cloudprovider.Route) :=
  let* nodeNamesByAddr := lift (foreachServer (compute r) indexServer ∅) in
  let* router := routers_Get (RouterID (opts r)) in
  ret (map (routeOf nodeNamesByAddr) (routers.Routes router)).

(** A server that has the address [a] among those [nodeAddresses] reads. *)
Definition hasAddress (srv : servers.Server) (a : string) : Prop :=
  exists addrs addr,
    nodeAddresses srv = Ok addrs /\ addr ∈ addrs /\ v1.Address addr = a.
End ListRoutes.

(** The closure updateRoutes returns (lines 110-118), with the variables it
    captures: it writes [origRoutes] back and only logs a failure. *)
Definition revertRoutes (router : routers.Router) (origRoutes : list routers.Route)
  : M World unit := fun w =>
  match routers_Update (routers.ID router) origRoutes w with
  | (Err err, w') => glog_Warning "Unable to reset routes during error unwind: " err w'
  | (Ok _, w') => (Ok tt, w')
  end.

Definition updateRoutes (router : routers.Router) (newRoutes : list routers.Route)
  : M World (M World unit) :=
  let origRoutes := routers.Routes router in
  let* _ := routers_Update (routers.ID router) newRoutes in
  let unwinder := revertRoutes router origRoutes in
  ret unwinder.

(** The closure updateAllowedAddressPairs returns (lines 133-141). *)
Definition revertPairs (port : neutronports.Port) (origPairs : list neutronports.AddressPair)
  : M World unit := fun w =>
  match neutronports_Update (neutronports.ID port) origPairs w with
  | (Err err, w') =>
      glog_Warning "Unable to reset allowed-address-pairs during error unwind: " err w'
  | (Ok _, w') => (Ok tt, w')
  end.

Definition updateAllowedAddressPairs (port : neutronports.Port)
    (newPairs : list neutronports.AddressPair) : M World (M World unit) :=
  let origPairs := neutronports.AllowedAddressPairs port in
  let* _ := neutronports_Update (neutronports.ID port) newPairs in
  let unwinder := revertPairs port origPairs in
  ret unwinder.

(** The loops of getPortIDByIP (lines 347-353). *)
Fixpoint findPortID (ipAddress : string) (interfaces : list attachinterfaces.Interface)
  : option string :=
  match interfaces with
  | [] => None
  | intf :: rest =>
      if existsb (fun fixedIP => String.eqb (attachinterfaces.IPAddress fixedIP) ipAddress)
                 (attachinterfaces.FixedIPs intf)
      then Some (attachinterfaces.PortID intf)
      else findPortID ipAddress rest
  end.

Definition getPortIDByIP (compute : Compute) (targetNode : NodeName) (ipAddress : string)
  : result string :=
  match getServerByName compute targetNode true with
  | Err err => Err err
  | Ok srv =>
      match getAttachedInterfacesByID compute (servers.ID srv) with
      | Err err => Err err
      | Ok interfaces =>
          match findPortID ipAddress interfaces with
          | Some portID => Ok portID
          | None => Err ErrNotFound
          end
      end
  end.

Definition getPortByID (portID : string) : M World neutronports.Port :=
  let* targetPort := neutronports_Get portID in
  match targetPort with
  | None => throw ErrNotFound
  | Some p => ret p
  end.

(** The number of elements of a collection that a test accepts. *)
Definition matching {A} (p : A -> bool) (l : list A) : nat :=
  length (List.filter p l).

(** The search loops of DeleteRoute (lines 277-283 and 311-317): [index]
    starts at -1 and is set to the position of the first match. *)
Fixpoint indexFrom {A} (p : A -> bool) (i : Z) (l : list A) : Z :=
  match l with
  | [] => (-1)%Z
  | item :: rest => if p item then i else indexFrom p (i + 1)%Z rest
  end.

(** [s[index] = s[len(s)-1]]: a store into the backing array of [s].  Go
    panics when the slice is empty; the callers only come here with an index
    found in [s]. *)
Definition storeLast {A} (s : list A) (index : nat) : list A :=
  match s !! (length s - 1) with
  | Some x => <[index := x]> s
  | None => s
  end.

Section RouteOperations.
Context `{NetLib}.

(** The loop of lines 165-172, the same as lines 259-266, with the
    variable [nexthop] it leaves. *)
Fixpoint pickNextHop (CIDRisV4 CIDRisV6 : bool) (addrs : list v1.NodeAddress) : string :=
  match addrs with
  | [] => ""
  | addr :: rest =>
      if String.eqb (v1.Type_ addr) v1.NodeInternalIP then
        if (IsIPv4 (v1.Address addr) && CIDRisV4) || (IsIPv6 (v1.Address addr) && CIDRisV6)
        then v1.Address addr
        else pickNextHop CIDRisV4 CIDRisV6 rest
      else pickNextHop CIDRisV4 CIDRisV6 rest
  end.

(** Lines 152-175 of CreateRoute, which DeleteRoute repeats as lines
    245-269: the next hop of a route, or the error the function returns. *)
Definition nextHopOf (r : Routes) (route : cloudprovider.Route) : result string :=
  let IP := ParseCIDR (cloudprovider.DestinationCIDR route) in
  let CIDRisV4 := IsIPv4 (IP_String IP) in
  let CIDRisV6 := IsIPv6 (IP_String IP) in
  match getAddressesByName (compute r) (cloudprovider.TargetNode route) with
  | Err err => Err err
  | Ok addrs =>
      if (length addrs =? 0)%nat then Err ErrNoAddressFound
      else
        let nexthop := pickNextHop CIDRisV4 CIDRisV6 addrs in
        if String.eqb nexthop "" then Err ErrNoAddressFound
        else Ok nexthop
  end.

(** The test of lines 187 and 279. *)
Definition sameRoute (route : cloudprovider.Route) (nexthop : string)
    (item : routers.Route) : bool :=
  String.eqb (routers.DestinationCIDR item) (cloudprovider.DestinationCIDR route)
  && String.eqb (routers.NextHop item) nexthop.

(** The test of lines 216 and 313. *)
Definition samePair (route : cloudprovider.Route) (item : neutronports.AddressPair) : bool :=
  String.eqb (neutronports.IPAddress item) (cloudprovider.DestinationCIDR route).

(** The entry CreateRoute appends to the route table (lines 193-196). *)
Definition entryOf (route : cloudprovider.Route) (nexthop : string) : routers.Route :=
  {| routers.NextHop := nexthop;
     routers.DestinationCIDR := cloudprovider.DestinationCIDR route |}.

(** The pair CreateRoute appends to the allowed address pairs (lines 224-226). *)
Definition pairOf (route : cloudprovider.Route) : neutronports.AddressPair :=
  {| neutronports.IPAddress := cloudprovider.DestinationCIDR route |}.

Definition CreateRoute_body (r : Routes) (route : cloudprovider.Route) : Body unit :=
  let* nexthop := lift (nextHopOf r route) in
  let* router := remote (routers_Get (RouterID (opts r))) in
  let routes := routers.Routes router in
  if existsb (sameRoute route nexthop) routes then ret tt
  else
    (* append leaves router.Routes, a slice of the old length, as it was *)
    let routes := routes ++ [entryOf route nexthop] in
    let* unwind := remote (updateRoutes router routes) in
    let* _ := defer (fun c => call c unwind) in
    let* portID := lift (getPortIDByIP (compute r) (cloudprovider.TargetNode route) nexthop) in
    let* port := remote (getPortByID portID) in
    let found := existsb (samePair route) (neutronports.AllowedAddressPairs port) in
    let* _ :=
      (if negb found then
         let newPairs := neutronports.AllowedAddressPairs port ++ [pairOf route] in
         let* unwind := remote (updateAllowedAddressPairs port newPairs) in
         defer (fun c => call c unwind)
       else ret tt) in
    let* _ := onFailure_disarm in
    ret tt.

(** CreateRoute creates the described managed route. *)
Definition CreateRoute (r : Routes) (clusterName nameHint : string)
    (route : cloudprovider.Route) : M World unit :=
  goFunc (CreateRoute_body r route).

Definition DeleteRoute_body (r : Routes) (route : cloudprovider.Route) : Body unit :=
  let* nexthop := lift (nextHopOf r route) in
  let* router := remote (routers_Get (RouterID (opts r))) in
  let routes := routers.Routes router in
  let index := indexFrom (sameRoute route nexthop) 0%Z routes in
  if (index =? -1)%Z then ret tt
  else
    (* Delete element index: routes and router.Routes are one array, so
       the store shows through router.Routes; only routes is cut short *)
    let backing := storeLast routes (Z.to_nat index) in
    let router := {| routers.ID := routers.ID router; routers.Routes := backing |} in
    let routes := take (length backing - 1) backing in
    let* unwind := remote (updateRoutes router routes) in
    let* _ := defer (fun c => call c unwind) in
    let* portID := lift (getPortIDByIP (compute r) (cloudprovider.TargetNode route) nexthop) in
    let* port := remote (getPortByID portID) in
    let addrPairs := neutronports.AllowedAddressPairs port in
    let index := indexFrom (samePair route) 0%Z addrPairs in
    let* _ :=
      (if negb (index =? -1)%Z then
         (* Delete element index, with port.AllowedAddressPairs sharing the array *)
         let backing := storeLast addrPairs (Z.to_nat index) in
         let port := {| neutronports.ID := neutronports.ID port;
                        neutronports.AllowedAddressPairs := backing |} in
         let addrPairs := take (length backing - 1) backing in
         let* unwind := remote (updateAllowedAddressPairs port addrPairs) in
         defer (fun c => call c unwind)
       else ret tt) in
    let* _ := onFailure_disarm in
    ret tt.

(** DeleteRoute deletes the specified managed route. *)
Definition DeleteRoute (r : Routes) (clusterName : string)
    (route : cloudprovider.Route) : M World unit :=
  goFunc (DeleteRoute_body r route).

(** *** The paths through the two operations

    Every way CreateRoute can run on a world [w], read off its body: the
    result it returns and the world it leaves. *)
Inductive CreateRoute_path (r : Routes) (route : cloudprovider.Route) (w : World)
  : result unit -> World -> Prop :=
| Create_unresolved e :
    nextHopOf r route = Err e ->
    CreateRoute_path r route w (Err e) w
| Create_fetch_failed nexthop e w1 :
    nextHopOf r route = Ok nexthop ->
    routers_Get (RouterID (opts r)) w = (Err e, w1) ->
    CreateRoute_path r route w (Err e) w1
| Create_existing nexthop router w1 :
    nextHopOf r route = Ok nexthop ->
    routers_Get (RouterID (opts r)) w = (Ok router, w1) ->
    entryOf route nexthop ∈ routers.Routes router ->
    CreateRoute_path r route w (Ok tt) w1
| Create_route_write_failed nexthop router w1 e w2 :
    nextHopOf r route = Ok nexthop ->
    routers_Get (RouterID (opts r)) w = (Ok router, w1) ->
    entryOf route nexthop ∉ routers.Routes router ->
    routers_Update (routers.ID router) (routers.Routes router ++ [entryOf route nexthop]) w1
      = (Err e, w2) ->
    CreateRoute_path r route w (Err e) w2
| Create_port_unresolved nexthop router w1 updated w2 e :
    nextHopOf r route = Ok nexthop ->
    routers_Get (RouterID (opts r)) w = (Ok router, w1) ->
    entryOf route nexthop ∉ routers.Routes router ->
    routers_Update (routers.ID router) (routers.Routes router ++ [entryOf route nexthop]) w1
      = (Ok updated, w2) ->
    getPortIDByIP (compute r) (cloudprovider.TargetNode route) nexthop = Err e ->
    CreateRoute_path r route w (Err e)
      (snd (revertRoutes router (routers.Routes router) w2))
| Create_port_fetch_failed nexthop router w1 updated w2 portID e w3 :
    nextHopOf r route = Ok nexthop ->
    routers_Get (RouterID (opts r)) w = (Ok router, w1) ->
    entryOf route nexthop ∉ routers.Routes router ->
    routers_Update (routers.ID router) (routers.Routes router ++ [entryOf route nexthop]) w1
      = (Ok updated, w2) ->
    getPortIDByIP (compute r) (cloudprovider.TargetNode route) nexthop = Ok portID ->
    getPortByID portID w2 = (Err e, w3) ->
    CreateRoute_path r route w (Err e)
      (snd (revertRoutes router (routers.Routes router) w3))
| Create_pair_existing nexthop router w1 updated w2 portID port w3 :
    nextHopOf r route = Ok nexthop ->
    routers_Get (RouterID (opts r)) w = (Ok router, w1) ->
    entryOf route nexthop ∉ routers.Routes router ->
    routers_Update (routers.ID router) (routers.Routes router ++ [entryOf route nexthop]) w1
      = (Ok updated, w2) ->
    getPortIDByIP (compute r) (cloudprovider.TargetNode route) nexthop = Ok portID ->
    getPortByID portID w2 = (Ok port, w3) ->
    pairOf route ∈ neutronports.AllowedAddressPairs port ->
    CreateRoute_path r route w (Ok tt) w3
| Create_pair_write_failed nexthop router w1 updated w2 portID port w3 e w4 :
    nextHopOf r route = Ok nexthop ->
    routers_Get (RouterID (opts r)) w = (Ok router, w1) ->
    entryOf route nexthop ∉ routers.Routes router ->
    routers_Update (routers.ID router) (routers.Routes router ++ [entryOf route nexthop]) w1
      = (Ok updated, w2) ->
    getPortIDByIP (compute r) (cloudprovider.TargetNode route) nexthop = Ok portID ->
    getPortByID portID w2 = (Ok port, w3) ->
    pairOf route ∉ neutronports.AllowedAddressPairs port ->
    neutronports_Update (neutronports.ID port)
      (neutronports.AllowedAddressPairs port ++ [pairOf route]) w3 = (Err e, w4) ->
    CreateRoute_path r route w (Err e)
      (snd (revertRoutes router (routers.Routes router) w4))
| Create_committed nexthop router w1 updated w2 portID port w3 updated' w4 :
    nextHopOf r route = Ok nexthop ->
    routers_Get (RouterID (opts r)) w = (Ok router, w1) ->
    entryOf route nexthop ∉ routers.Routes router ->
    routers_Update (routers.ID router) (routers.Routes router ++ [entryOf route nexthop]) w1
      = (Ok updated, w2) ->
    getPortIDByIP (compute r) (cloudprovider.TargetNode route) nexthop = Ok portID ->
    getPortByID portID w2 = (Ok port, w3) ->
    pairOf route ∉ neutronports.AllowedAddressPairs port ->
    neutronports_Update (neutronports.ID port)
      (neutronports.AllowedAddressPairs port ++ [pairOf route]) w3 = (Ok updated', w4) ->
    CreateRoute_path r route w (Ok tt) w4.

(** What DeleteRoute keeps of a slice [s] after deleting element [index]:
    the array after the store, which every alias of [s] sees, and the slice
    cut by one, which only the local variable holds. *)
Definition stored {A} (s : list A) (index : Z) : list A := storeLast s (Z.to_nat index).
Definition cut {A} (s : list A) (index : Z) : list A :=
  take (length (stored s index) - 1) (stored s index).

(** Every way DeleteRoute can run on a world [w]. *)
Inductive DeleteRoute_path (r : Routes) (route : cloudprovider.Route) (w : World)
  : result unit -> World -> Prop :=
| Delete_unresolved e :
    nextHopOf r route = Err e ->
    DeleteRoute_path r route w (Err e) w
| Delete_fetch_failed nexthop e w1 :
    nextHopOf r route = Ok nexthop ->
    routers_Get (RouterID (opts r)) w = (Err e, w1) ->
    DeleteRoute_path r route w (Err e) w1
| Delete_absent nexthop router w1 :
    nextHopOf r route = Ok nexthop ->
    routers_Get (RouterID (opts r)) w = (Ok router, w1) ->
    indexFrom (sameRoute route nexthop) 0%Z (routers.Routes router) = (-1)%Z ->
    DeleteRoute_path r route w (Ok tt) w1
| Delete_route_write_failed nexthop router w1 index e w2 :
    nextHopOf r route = Ok nexthop ->
    routers_Get (RouterID (opts r)) w = (Ok router, w1) ->
    indexFrom (sameRoute route nexthop) 0%Z (routers.Routes router) = index ->
    index <> (-1)%Z ->
    routers_Update (routers.ID router) (cut (routers.Routes router) index) w1 = (Err e, w2) ->
    DeleteRoute_path r route w (Err e) w2
| Delete_port_unresolved nexthop router w1 index updated w2 e :
    nextHopOf r route = Ok nexthop ->
    routers_Get (RouterID (opts r)) w = (Ok router, w1) ->
    indexFrom (sameRoute route nexthop) 0%Z (routers.Routes router) = index ->
    index <> (-1)%Z ->
    routers_Update (routers.ID router) (cut (routers.Routes router) index) w1
      = (Ok updated, w2) ->
    getPortIDByIP (compute r) (cloudprovider.TargetNode route) nexthop = Err e ->
    DeleteRoute_path r route w (Err e)
      (snd (revertRoutes router (stored (routers.Routes router) index) w2))
| Delete_port_fetch_failed nexthop router w1 index updated w2 portID e w3 :
    nextHopOf r route = Ok nexthop ->
    routers_Get (RouterID (opts r)) w = (Ok router, w1) ->
    indexFrom (sameRoute route nexthop) 0%Z (routers.Routes router) = index ->
    index <> (-1)%Z ->
    routers_Update (routers.ID router) (cut (routers.Routes router) index) w1
      = (Ok updated, w2) ->
    getPortIDByIP (compute r) (cloudprovider.TargetNode route) nexthop = Ok portID ->
    getPortByID portID w2 = (Err e, w3) ->
    DeleteRoute_path r route w (Err e)
      (snd (revertRoutes router (stored (routers.Routes router) index) w3))
| Delete_pair_absent nexthop router w1 index updated w2 portID port w3 :
    nextHopOf r route = Ok nexthop ->
    routers_Get (RouterID (opts r)) w = (Ok router, w1) ->
    indexFrom (sameRoute route nexthop) 0%Z (routers.Routes router) = index ->
    index <> (-1)%Z ->
    routers_Update (routers.ID router) (cut (routers.Routes router) index) w1
      = (Ok updated, w2) ->
    getPortIDByIP (compute r) (cloudprovider.TargetNode route) nexthop = Ok portID ->
    getPortByID portID w2 = (Ok port, w3) ->
    indexFrom (samePair route) 0%Z (neutronports.AllowedAddressPairs port) = (-1)%Z ->
    DeleteRoute_path r route w (Ok tt) w3
| Delete_pair_write_failed nexthop router w1 index updated w2 portID port w3 index' e w4 :
    nextHopOf r route = Ok nexthop ->
    routers_Get (RouterID (opts r)) w = (Ok router, w1) ->
    indexFrom (sameRoute route nexthop) 0%Z (routers.Routes router) = index ->
    index <> (-1)%Z ->
    routers_Update (routers.ID router) (cut (routers.Routes router) index) w1
      = (Ok updated, w2) ->
    getPortIDByIP (compute r) (cloudprovider.TargetNode route) nexthop = Ok portID ->
    getPortByID portID w2 = (Ok port, w3) ->
    indexFrom (samePair route) 0%Z (neutronports.AllowedAddressPairs port) = index' ->
    index' <> (-1)%Z ->
    neutronports_Update (neutronports.ID port)
      (cut (neutronports.AllowedAddressPairs port) index') w3 = (Err e, w4) ->
    DeleteRoute_path r route w (Err e)
      (snd (revertRoutes router (stored (routers.Routes router) index) w4))
| Delete_committed nexthop router w1 index updated w2 portID port w3 index' updated' w4 :
    nextHopOf r route = Ok nexthop ->
    routers_Get (RouterID (opts r)) w = (Ok router, w1) ->
    indexFrom (sameRoute route nexthop) 0%Z (routers.Routes router) = index ->
    index <> (-1)%Z ->
    routers_Update (routers.ID router) (cut (routers.Routes router) index) w1
      = (Ok updated, w2) ->
    getPortIDByIP (compute r) (cloudprovider.TargetNode route) nexthop = Ok portID ->
    getPortByID portID w2 = (Ok port, w3) ->
    indexFrom (samePair route) 0%Z (neutronports.AllowedAddressPairs port) = index' ->
    index' <> (-1)%Z ->
    neutronports_Update (neutronports.ID port)
      (cut (neutronports.AllowedAddressPairs port) index') w3 = (Ok updated', w4) ->
    DeleteRoute_path r route w (Ok tt) w4.

(** A deferred call of this file: [onFailure.call(unwind)] with [unwind] one
    of the two closures. *)
Definition compensation (d : caller -> M World unit) : Prop :=
  (exists router origRoutes, d = fun c => call c (revertRoutes router origRoutes)) \/
  (exists port origPairs, d = fun c => call c (revertPairs port origPairs)).

(** An address CreateRoute and DeleteRoute can take as next hop for a
    CIDR: its role is internal and its family is the family of the CIDR. *)
Definition usable (cidr : string) (addr : v1.NodeAddress) : Prop :=
  v1.Type_ addr = v1.NodeInternalIP /\
  ((IsIPv4 (v1.Address addr) = true /\ IsIPv4 (IP_String (ParseCIDR cidr)) = true) \/
   (IsIPv6 (v1.Address addr) = true /\ IsIPv6 (IP_String (ParseCIDR cidr)) = true)).

(** The same test on booleans, as the loop of lines 165-172 makes it. *)
Definition usableb (v4 v6 : bool) (addr : v1.NodeAddress) : bool :=
  String.eqb (v1.Type_ addr) v1.NodeInternalIP
  && ((IsIPv4 (v1.Address addr) && v4) || (IsIPv6 (v1.Address addr) && v6)).
End RouteOperations.

(** ** Notions the further properties speak of *)

(** An interface that has [ipAddress] among its fixed IPs: the test of the
    inner loop of getPortIDByIP (lines 348-352). *)
Definition owns (ipAddress : string) (intf : attachinterfaces.Interface) : Prop :=
  exists fixedIP,
    fixedIP ∈ attachinterfaces.FixedIPs intf /\
    attachinterfaces.IPAddress fixedIP = ipAddress.

(** A journalled write request that succeeded. *)
Definition succeeded (ev : Event) : Prop :=
  match ev with
  | RouterUpdate _ _ None | PortUpdate _ _ None => True
  | _ => False
  end.

(** A journalled write of a port's allowed address pairs. *)
Definition isPortUpdate (ev : Event) : bool :=
  match ev with
  | PortUpdate _ _ _ => true
  | _ => false
  end.


(** ** A concrete cloud for the examples *)

Module Demo.
(** A small instance of the address functions: a dotted string of decimal
    digits counts as IPv4, a string of hexadecimal digits with a colon as
    IPv6, and a CIDR is such an address, a slash and decimal digits. *)
Definition isDigit (c : ascii) : bool :=
  let n := nat_of_ascii c in ((48 <=? n) && (n <=? 57))%nat.
Definition isHex (c : ascii) : bool :=
  let n := nat_of_ascii c in
  isDigit c || ((97 <=? n) && (n <=? 102))%nat || ((65 <=? n) && (n <=? 70))%nat.
Definition isDot (c : ascii) : bool := (nat_of_ascii c =? 46)%nat.
Definition isColon (c : ascii) : bool := (nat_of_ascii c =? 58)%nat.
Definition isSlash (c : ascii) : bool := (nat_of_ascii c =? 47)%nat.

Definition dotted (s : string) : bool :=
  let cs := list_ascii_of_string s in
  forallb (fun c => isDigit c || isDot c) cs && existsb isDot cs && existsb isDigit cs.
Definition coloned (s : string) : bool :=
  let cs := list_ascii_of_string s in
  forallb (fun c => isHex c || isColon c) cs && existsb isColon cs.

Fixpoint splitSlash (s : string) : option (string * string) :=
  match s with
  | EmptyString => None
  | String c rest =>
      if isSlash c then Some (EmptyString, rest)
      else match splitSlash rest with
           | Some (a, b) => Some (String c a, b)
           | None => None
           end
  end.

Definition parseCIDR (s : string) : option string :=
  match splitSlash s with
  | Some (a, m) =>
      if (dotted a || coloned a)
         && forallb isDigit (list_ascii_of_string m)
         && negb (String.eqb m "")
      then Some a else None
  | None => None
  end.

#[export] Instance lib : NetLib := {|
  IP := string;
  ParseCIDR := parseCIDR;
  IPString := fun ip => ip;
  IsIPv4 := dotted;
  IsIPv6 := coloned
|}.

Definition internal (a : string) : v1.NodeAddress :=
  {| v1.Type_ := v1.NodeInternalIP; v1.Address := a |}.
Definition external (a : string) : v1.NodeAddress :=
  {| v1.Type_ := v1.NodeExternalIP; v1.Address := a |}.

Definition n1 : servers.Server := {| servers.ID := "srv-1"; servers.Name := "n1" |}.

(** Node n1 has the internal address 10.0.0.5 on port p1. *)
Definition cloud : Compute := {|
  listServers := Ok [n1];
  getAddressesByName := fun name =>
    if String.eqb name "n1" then Ok [external "192.0.2.7"; internal "fd00::5"; internal "10.0.0.5"]
    else Err ErrNotFound;
  getServerByName := fun name _ =>
    if String.eqb name "n1" then Ok n1 else Err ErrNotFound;
  getAttachedInterfacesByID := fun id =>
    if String.eqb id "srv-1" then
      Ok [ {| attachinterfaces.PortID := "p1";
              attachinterfaces.FixedIPs := [ {| attachinterfaces.IPAddress := "10.0.0.5" |} ] |} ]
    else Err ErrNotFound
|}.

Definition engine : Routes := {| compute := cloud; opts := {| RouterID := "r1" |} |}.

Definition rt (cidr hop : string) : routers.Route :=
  {| routers.NextHop := hop; routers.DestinationCIDR := cidr |}.
Definition pair (cidr : string) : neutronports.AddressPair :=
  {| neutronports.IPAddress := cidr |}.

Definition world (routes : list routers.Route) (pairs : list neutronports.AddressPair)
    (faults : nat -> option error) : World :=
  {| routerTable := {[ "r1" := routes ]};
     portFilters := {[ "p1" := pairs ]};
     faults := faults;
     served := 0;
     journal := [] |}.

Definition noFault : nat -> option error := fun _ => None.
Definition failAt (n : nat) (e : error) : nat -> option error :=
  fun k => if (k =? n)%nat then Some e else None.
Definition failFrom (n : nat) (e : error) : nat -> option error :=
  fun k => if (n <=? k)%nat then Some e else None.
(** Request 3 fails with 500 and request 4 with 503. *)
Definition failTwice : nat -> option error :=
  fun k => if (k =? 3)%nat then Some (ErrRemote 500)
           else if (k =? 4)%nat then Some (ErrRemote 503) else None.

Definition route1 : cloudprovider.Route :=
  {| cloudprovider.Name := "10.1.0.0/24"; cloudprovider.TargetNode := "n1";
     cloudprovider.DestinationCIDR := "10.1.0.0/24"; cloudprovider.Blackhole := false |}.

Definition entry1 : routers.Route := rt "10.1.0.0/24" "10.0.0.5".
Definition entry2 : routers.Route := rt "10.2.0.0/24" "10.0.0.6".
Definition pair1 : neutronports.AddressPair := pair "10.1.0.0/24".
Definition pair2 : neutronports.AddressPair := pair "10.2.0.0/24".
Definition router1 (routes : list routers.Route) : routers.Router :=
  {| routers.ID := "r1"; routers.Routes := routes |}.

(** A route whose DestinationCIDR does not parse. *)
Definition badRoute : cloudprovider.Route :=
  {| cloudprovider.Name := "bad"; cloudprovider.TargetNode := "n1";
     cloudprovider.DestinationCIDR := "not-a-cidr"; cloudprovider.Blackhole := false |}.

(** The helpers of ListRoutes on the example cloud: every server has the
    address 10.0.0.5 and is named by its Name field. *)
Definition addressesOf (srv : servers.Server) : result (list v1.NodeAddress) :=
  Ok [internal "10.0.0.5"].
Definition nameOf (srv : servers.Server) : NodeName := servers.Name srv.

(** A second cloud: two servers are listed, and n1 has three interfaces,
    of which the second and the third hold 10.0.0.5. *)
Definition n2 : servers.Server := {| servers.ID := "srv-2"; servers.Name := "n2" |}.
Definition nic (portID ip : string) : attachinterfaces.Interface :=
  {| attachinterfaces.PortID := portID;
     attachinterfaces.FixedIPs := [ {| attachinterfaces.IPAddress := ip |} ] |}.
Definition cloud2 : Compute := {|
  listServers := Ok [n1; n2];
  getAddressesByName := getAddressesByName cloud;
  getServerByName := getServerByName cloud;
  getAttachedInterfacesByID := fun id =>
    if String.eqb id "srv-1" then
      Ok [nic "p0" "10.0.0.9"; nic "p1" "10.0.0.5"; nic "p3" "10.0.0.5"]
    else Err ErrNotFound
|}.
Definition engine2 : Routes := {| compute := cloud2; opts := {| RouterID := "r1" |} |}.

(** The addresses of n2 cannot be read. *)
Definition addressesUnlessN2 (srv : servers.Server) : result (list v1.NodeAddress) :=
  if String.eqb (servers.Name srv) "n2" then Err ErrNotFound
  else Ok [internal "10.0.0.5"].

Definition entry3 : routers.Route := rt "10.3.0.0/24" "10.0.0.7".
Definition port1 (pairs : list neutronports.AddressPair) : neutronports.Port :=
  {| neutronports.ID := "p1"; neutronports.AllowedAddressPairs := pairs |}.
End Demo.


(** * Properties *)

(** ** The monad and the remote calls *)

Lemma remote_run {A} (c : M World A) fr w :
  remote c (fr, w) = (fst (c w), (fr, snd (c w))).
Proof. unfold remote. simpl. now destruct (c w). Qed.

(** A read leaves the collections and the journal alone. *)
Lemma routers_Get_frame id w res w' :
  routers_Get id w = (res, w') ->
  w' = tick w /\
  match res with
  | Ok router => routers.ID router = id /\ routerTable w !! id = Some (routers.Routes router)
  | Err _ => True
  end.
Proof.
  unfold routers_Get, outcome.
  destruct (faults w (served w)), (routerTable w !! id); intros [= <- <-]; auto.
Qed.

Lemma neutronports_Get_frame id w res w' :
  neutronports_Get id w = (res, w') ->
  w' = tick w /\
  match res with
  | Ok (Some port) =>
      neutronports.ID port = id /\
      portFilters w !! id = Some (neutronports.AllowedAddressPairs port)
  | Ok None => False
  | Err _ => True
  end.
Proof.
  unfold neutronports_Get, outcome.
  destruct (faults w (served w)), (portFilters w !! id); intros [= <- <-]; auto.
Qed.

Lemma getPortByID_frame id w res w' :
  getPortByID id w = (res, w') ->
  w' = tick w /\
  match res with
  | Ok port =>
      neutronports.ID port = id /\
      portFilters w !! id = Some (neutronports.AllowedAddressPairs port)
  | Err _ => True
  end.
Proof.
  unfold getPortByID, bind. destruct (neutronports_Get id w) as [[[p|]|e] w1] eqn:E;
    apply neutronports_Get_frame in E as [-> E]; simpl; intros [= <- <-]; tauto.
Qed.

(** ** Searching and deleting in a slice *)

Section Search.
Context `{NetLib}.

Lemma sameRoute_true route nexthop item :
  sameRoute route nexthop item = true <-> item = entryOf route nexthop.
Proof.
  unfold sameRoute, entryOf. rewrite andb_true_iff, !String.eqb_eq.
  destruct item as [h c]; simpl. split.
  - intros [-> ->]; reflexivity.
  - intros [= -> ->]; auto.
Qed.

Lemma samePair_true route item :
  samePair route item = true <-> item = pairOf route.
Proof.
  unfold samePair, pairOf. rewrite String.eqb_eq.
  destruct item as [a]; simpl. split.
  - intros ->; reflexivity.
  - intros [= ->]; auto.
Qed.
End Search.

Lemma existsb_eq {A} (p : A -> bool) (x : A) (l : list A) :
  (forall y, p y = true <-> y = x) ->
  existsb p l = true <-> x ∈ l.
Proof.
  intros Hp. rewrite existsb_exists. split.
  - intros (y & Hy & Hpy). apply Hp in Hpy as ->. now apply list_elem_of_In.
  - intros Hx. exists x. split; [now apply list_elem_of_In | now apply Hp].
Qed.

Lemma existsb_false_eq {A} (p : A -> bool) (x : A) (l : list A) :
  (forall y, p y = true <-> y = x) ->
  existsb p l = false <-> x ∉ l.
Proof.
  intros Hp. rewrite <- (existsb_eq p x l Hp). destruct (existsb p l); split; congruence.
Qed.

(** ** Construction *)

(** C9: NewRoutes fails with the missing-configuration error, and yields no
    engine, exactly when the router identifier of the options is empty;
    otherwise it succeeds with an engine built from the client and the
    options it was given. *)
Theorem NewRoutes_requires_router_id (c : Compute) (o : RouterOpts) :
  match NewRoutes c o with
  | Err e => e = errNoRouterID /\ RouterID o = ""
  | Ok r => RouterID o <> "" /\ compute r = c /\ opts r = o
  end.
Proof.
  unfold NewRoutes. destruct (String.eqb_spec (RouterID o) ""); simpl; auto.
Qed.

(** ** Next-hop resolution *)

Section Resolution.
Context `{NetLib}.

Lemma usableb_usable cidr addr :
  usableb (IsIPv4 (IP_String (ParseCIDR cidr))) (IsIPv6 (IP_String (ParseCIDR cidr))) addr = true
  <-> usable cidr addr.
Proof.
  unfold usableb, usable.
  rewrite andb_true_iff, orb_true_iff, !andb_true_iff, String.eqb_eq. tauto.
Qed.

Lemma pickNextHop_first v4 v6 addrs :
  (exists pre addr post,
      addrs = pre ++ addr :: post /\
      Forall (fun a => usableb v4 v6 a = false) pre /\
      usableb v4 v6 addr = true /\
      pickNextHop v4 v6 addrs = v1.Address addr)
  \/ (Forall (fun a => usableb v4 v6 a = false) addrs /\ pickNextHop v4 v6 addrs = "").
Proof.
  induction addrs as [|a addrs IH]; simpl.
  - right. split; [constructor | reflexivity].
  - destruct (usableb v4 v6 a) eqn:Ua.
    + left. exists [], a, addrs. repeat split; auto.
      unfold usableb in Ua. apply andb_true_iff in Ua as [-> ->]. reflexivity.
    + assert (Hskip : (if String.eqb (v1.Type_ a) v1.NodeInternalIP
                       then if (IsIPv4 (v1.Address a) && v4) || (IsIPv6 (v1.Address a) && v6)
                            then v1.Address a else pickNextHop v4 v6 addrs
                       else pickNextHop v4 v6 addrs) = pickNextHop v4 v6 addrs).
      { unfold usableb in Ua. destruct (String.eqb (v1.Type_ a) v1.NodeInternalIP); simpl in Ua;
          [now rewrite Ua | reflexivity]. }
      rewrite Hskip. destruct IH as [(pre & addr & post & -> & Hpre & Hu & Hp) | [Hall Hp]].
      * left. exists (a :: pre), addr, post. repeat split; auto.
      * right. split; auto.
Qed.

Lemma pickNextHop_no_family addrs : pickNextHop false false addrs = "".
Proof.
  induction addrs as [|a addrs IH]; simpl; [reflexivity|].
  rewrite !andb_false_r. simpl. now destruct (String.eqb _ _).
Qed.

Lemma CreateRoute_unresolved r cn nh route e w :
  nextHopOf r route = Err e -> CreateRoute r cn nh route w = (Err e, w).
Proof.
  intros E. unfold CreateRoute, goFunc, CreateRoute_body, bind, lift. now rewrite E.
Qed.

Lemma DeleteRoute_unresolved r cn route e w :
  nextHopOf r route = Err e -> DeleteRoute r cn route w = (Err e, w).
Proof.
  intros E. unfold DeleteRoute, goFunc, DeleteRoute_body, bind, lift. now rewrite E.
Qed.

(** C10: when the DestinationCIDR of the route does not parse and the
    target node resolves to a list of addresses, CreateRoute and
    DeleteRoute return NoAddressFound and leave the world as it was, no
    request having been sent.  The nil IP prints as "<nil>", which
    govalidator takes for neither family. *)
Theorem unparseable_cidr_finds_no_address r cn nh route addrs w :
  IsIPv4 "<nil>" = false ->
  IsIPv6 "<nil>" = false ->
  ParseCIDR (cloudprovider.DestinationCIDR route) = None ->
  getAddressesByName (compute r) (cloudprovider.TargetNode route) = Ok addrs ->
  addrs <> [] ->
  CreateRoute r cn nh route w = (Err ErrNoAddressFound, w) /\
  DeleteRoute r cn route w = (Err ErrNoAddressFound, w).
Proof.
  intros H4 H6 Hparse Haddrs _.
  assert (E : nextHopOf r route = Err ErrNoAddressFound).
  { unfold nextHopOf. rewrite Haddrs, Hparse. simpl. rewrite H4, H6.
    rewrite pickNextHop_no_family. simpl. now destruct (length addrs =? 0)%nat. }
  split; [now apply CreateRoute_unresolved | now apply DeleteRoute_unresolved].
Qed.

(** C6: with the address list the target node resolves to, the next hop is
    the address of the first entry of the list whose role is internal and
    whose family is that of the DestinationCIDR, so that a CIDR of one
    family alone takes an address of that family; when the list is empty
    or has no such entry, CreateRoute and DeleteRoute fail with
    NoAddressFound.  The empty string is an address of neither family. *)
Theorem next_hop_is_first_internal_address_of_family r cn nh route addrs w :
  IsIPv4 "" = false ->
  IsIPv6 "" = false ->
  getAddressesByName (compute r) (cloudprovider.TargetNode route) = Ok addrs ->
  let cidr := cloudprovider.DestinationCIDR route in
  (exists pre addr post,
      addrs = pre ++ addr :: post /\
      Forall (fun a => ~ usable cidr a) pre /\
      usable cidr addr /\
      nextHopOf r route = Ok (v1.Address addr) /\
      (IsIPv6 (IP_String (ParseCIDR cidr)) = false -> IsIPv4 (v1.Address addr) = true) /\
      (IsIPv4 (IP_String (ParseCIDR cidr)) = false -> IsIPv6 (v1.Address addr) = true))
  \/ (Forall (fun a => ~ usable cidr a) addrs /\
      CreateRoute r cn nh route w = (Err ErrNoAddressFound, w) /\
      DeleteRoute r cn route w = (Err ErrNoAddressFound, w)).
Proof.
  intros H4 H6 Haddrs cidr.
  set (v4 := IsIPv4 (IP_String (ParseCIDR cidr))).
  set (v6 := IsIPv6 (IP_String (ParseCIDR cidr))).
  assert (Hno : forall l, Forall (fun a => usableb v4 v6 a = false) l ->
                          Forall (fun a => ~ usable cidr a) l).
  { intros l HF. eapply Forall_impl; [exact HF|]. intros a Ha Hu.
    apply usableb_usable in Hu. fold cidr v4 v6 in Hu. congruence. }
  destruct (pickNextHop_first v4 v6 addrs)
    as [(pre & addr & post & Hsplit & Hpre & Hu & Hp) | [Hall Hp]].
  - left. exists pre, addr, post.
    assert (Hus : usable cidr addr) by (apply usableb_usable; exact Hu).
    assert (Hne : v1.Address addr <> "").
    { intros E. destruct Hus as [_ [[Ha _] | [Ha _]]]; rewrite E in Ha; congruence. }
    split_and!; auto.
    + unfold nextHopOf. rewrite Haddrs. fold cidr v4 v6. rewrite Hp.
      subst addrs. rewrite length_app. simpl.
      replace (length pre + S (length post) =? 0)%nat with false
        by (symmetry; apply Nat.eqb_neq; lia).
      apply String.eqb_neq in Hne. now rewrite Hne.
    + intros E6. unfold v6 in E6.
      destruct Hus as [_ [[Ha _] | [_ Hc]]]; [exact Ha | congruence].
    + intros E4. unfold v4 in E4.
      destruct Hus as [_ [[_ Hc] | [Ha _]]]; [congruence | exact Ha].
  - right. split; [now apply Hno|].
    assert (E : nextHopOf r route = Err ErrNoAddressFound).
    { unfold nextHopOf. rewrite Haddrs. fold cidr v4 v6. rewrite Hp. simpl.
      now destruct (length addrs =? 0)%nat. }
    split; [now apply CreateRoute_unresolved | now apply DeleteRoute_unresolved].
Qed.
End Resolution.

Lemma indexFrom_found {A} (p : A -> bool) (l : list A) (i : Z) :
  (0 <= i)%Z ->
  (indexFrom p i l = (-1)%Z /\ Forall (fun x => p x = false) l)
  \/ (exists k x, indexFrom p i l = (i + Z.of_nat k)%Z /\ l !! k = Some x /\ p x = true).
Proof.
  revert i. induction l as [|y l IH]; intros i Hi; simpl.
  - left. split; [reflexivity | constructor].
  - destruct (p y) eqn:Py.
    + right. exists 0, y. split; [lia | split; [reflexivity | exact Py]].
    + destruct (IH (i + 1)%Z ltac:(lia)) as [[E Hall] | (k & x & E & Hk & Px)].
      * left. split; [exact E | now constructor].
      * right. exists (S k), x. split; [lia | split; [exact Hk | exact Px]].
Qed.

Lemma indexFrom_absent {A} (p : A -> bool) (x : A) (l : list A) :
  (forall y, p y = true <-> y = x) -> x ∉ l -> indexFrom p 0 l = (-1)%Z.
Proof.
  intros Hp Hx. destruct (indexFrom_found p l 0 ltac:(lia)) as [[E _] | (k & y & _ & Hk & Py)].
  - exact E.
  - apply Hp in Py as ->. exfalso. apply Hx. eapply list_elem_of_lookup_2. exact Hk.
Qed.

Lemma indexFrom_present {A} (p : A -> bool) (x : A) (l : list A) :
  (forall y, p y = true <-> y = x) -> x ∈ l ->
  exists k, indexFrom p 0 l = Z.of_nat k /\ l !! k = Some x.
Proof.
  intros Hp Hx. destruct (indexFrom_found p l 0 ltac:(lia)) as [[_ Hall] | (k & y & E & Hk & Py)].
  - rewrite Forall_forall in Hall. specialize (Hall x Hx).
    assert (p x = true) by now apply Hp. congruence.
  - apply Hp in Py as ->. exists k. split; [lia | exact Hk].
Qed.

(** ** Operations that find nothing to do *)

Section Noop.
Context `{NetLib}.

Lemma CreateRoute_existing r cn nh route w nexthop router w1 :
  nextHopOf r route = Ok nexthop ->
  routers_Get (RouterID (opts r)) w = (Ok router, w1) ->
  entryOf route nexthop ∈ routers.Routes router ->
  CreateRoute r cn nh route w = (Ok tt, w1).
Proof.
  intros Hn Hg Hin.
  apply (existsb_eq _ _ _ (sameRoute_true route nexthop)) in Hin.
  unfold CreateRoute, goFunc, CreateRoute_body, bind, lift. rewrite Hn.
  rewrite remote_run, Hg. simpl. now rewrite Hin.
Qed.

Lemma DeleteRoute_absent r cn route w nexthop router w1 :
  nextHopOf r route = Ok nexthop ->
  routers_Get (RouterID (opts r)) w = (Ok router, w1) ->
  entryOf route nexthop ∉ routers.Routes router ->
  DeleteRoute r cn route w = (Ok tt, w1).
Proof.
  intros Hn Hg Hin.
  apply (indexFrom_absent _ _ _ (sameRoute_true route nexthop)) in Hin.
  unfold DeleteRoute, goFunc, DeleteRoute_body, bind, lift. rewrite Hn.
  rewrite remote_run, Hg. simpl. now rewrite Hin.
Qed.

(** C4: when the next hop of the route resolves and the fetched route
    table has no entry with the DestinationCIDR and that next hop,
    DeleteRoute returns success without a write request: the journal, the
    route tables and the filter lists are what they were. *)
Theorem DeleteRoute_absent_route_is_noop r cn route w nexthop router w1 :
  nextHopOf r route = Ok nexthop ->
  routers_Get (RouterID (opts r)) w = (Ok router, w1) ->
  entryOf route nexthop ∉ routers.Routes router ->
  let run := DeleteRoute r cn route w in
  fst run = Ok tt /\
  journal (snd run) = journal w /\
  routerTable (snd run) = routerTable w /\
  portFilters (snd run) = portFilters w.
Proof.
  intros Hn Hg Hin run. unfold run.
  rewrite (DeleteRoute_absent r cn route w nexthop router w1 Hn Hg Hin).
  apply routers_Get_frame in Hg as [-> _]. simpl. auto.
Qed.
End Noop.

(** ** ListRoutes *)

Section ListRoutesProperties.
Variable nodeAddresses : servers.Server -> result (list v1.NodeAddress).
Variable mapServerToNodeName : servers.Server -> NodeName.

Local Abbreviation indexAddrs name :=
  (fold_left (fun (m : gmap string NodeName) addr => <[v1.Address addr := name]> m)).

Lemma indexAddrs_Some name addrs (m0 : gmap string NodeName) a n :
  indexAddrs name addrs m0 !! a = Some n ->
  m0 !! a = Some n \/ (n = name /\ exists addr, addr ∈ addrs /\ v1.Address addr = a).
Proof.
  revert m0. induction addrs as [|x addrs IH]; intros m0; simpl; [now left|].
  intros Hl. apply IH in Hl as [Hl | (-> & addr & Hin & Ha)].
  - destruct (decide (v1.Address x = a)) as [E|E].
    + rewrite E, lookup_insert_eq in Hl. injection Hl as <-.
      right. split; [reflexivity|]. exists x. split; [left | exact E].
    + rewrite lookup_insert_ne in Hl by exact E. now left.
  - right. split; [reflexivity|]. exists addr. split; [now right | exact Ha].
Qed.

Lemma indexAddrs_None name addrs (m0 : gmap string NodeName) a :
  indexAddrs name addrs m0 !! a = None ->
  m0 !! a = None /\ forall addr, addr ∈ addrs -> v1.Address addr <> a.
Proof.
  revert m0. induction addrs as [|x addrs IH]; intros m0; simpl.
  - intros Hl. split; [exact Hl|]. intros addr Hin. inversion Hin.
  - intros Hl. apply IH in Hl as [Hl Hrest].
    destruct (decide (v1.Address x = a)) as [E|E].
    + rewrite E, lookup_insert_eq in Hl. discriminate.
    + rewrite lookup_insert_ne in Hl by exact E. split; [exact Hl|].
      intros addr Hin. apply elem_of_cons in Hin as [-> | Hin]; [exact E | now apply Hrest].
Qed.

(** The index foreachServer leaves: an address is a key exactly when a
    listed server has it, and its value is the name of such a server. *)
Lemma eachServer_index srvs :
  Forall (fun srv => exists addrs, nodeAddresses srv = Ok addrs) srvs ->
  forall m0 : gmap string NodeName,
  exists m, eachServer (indexServer nodeAddresses mapServerToNodeName) srvs m0 = Ok m /\
    (forall a n, m !! a = Some n ->
       m0 !! a = Some n \/
       exists srv, srv ∈ srvs /\ hasAddress nodeAddresses srv a /\ n = mapServerToNodeName srv) /\
    (forall a, m !! a = None ->
       m0 !! a = None /\ forall srv, srv ∈ srvs -> ~ hasAddress nodeAddresses srv a).
Proof.
  induction 1 as [|srv srvs [addrs Haddrs] _ IH]; intros m0; simpl.
  - exists m0. split; [reflexivity|]. split; [now left|].
    intros a Ha. split; [exact Ha|]. intros srv Hin. inversion Hin.
  - unfold indexServer at 1. rewrite Haddrs.
    destruct (IH (indexAddrs (mapServerToNodeName srv) addrs m0)) as (m & Hm & HS & HN).
    exists m. split; [exact Hm|]. split.
    + intros a n Hl. apply HS in Hl as [Hl | (s & Hin & Hh & Hn)].
      * apply indexAddrs_Some in Hl as [Hl | (-> & addr & Hin & Ha)]; [now left|].
        right. exists srv. split; [left|]. split; [|reflexivity].
        exists addrs, addr. auto.
      * right. exists s. split; [now right | auto].
    + intros a Hl. apply HN in Hl as [Hl Hrest].
      apply indexAddrs_None in Hl as [Hl Hhere]. split; [exact Hl|].
      intros s Hin. apply elem_of_cons in Hin as [-> | Hin]; [|now apply Hrest].
      intros (addrs' & addr & Ha' & Hin & Ha). rewrite Haddrs in Ha'. injection Ha' as <-.
      now apply (Hhere addr).
Qed.

(** C5: when the servers are listed, their addresses read and the router
    fetched, ListRoutes returns one Route for each entry of the router's
    route table, in the order of the table.  The Route carries the
    DestinationCIDR of the entry as its name and its CIDR; Blackhole is
    true exactly when no listed server has the next-hop address of the
    entry, and then TargetNode is empty; otherwise Blackhole is false and
    TargetNode is the name of a server that has that address. *)
Theorem ListRoutes_one_route_per_entry r cn w srvs router w1 :
  listServers (compute r) = Ok srvs ->
  Forall (fun srv => exists addrs, nodeAddresses srv = Ok addrs) srvs ->
  routers_Get (RouterID (opts r)) w = (Ok router, w1) ->
  exists routes,
    ListRoutes nodeAddresses mapServerToNodeName r cn w = (Ok routes, w1) /\
    Forall2 (fun item route =>
        cloudprovider.Name route = routers.DestinationCIDR item /\
        cloudprovider.DestinationCIDR route = routers.DestinationCIDR item /\
        (cloudprovider.Blackhole route = true <->
           forall srv, srv ∈ srvs -> ~ hasAddress nodeAddresses srv (routers.NextHop item)) /\
        (cloudprovider.Blackhole route = true -> cloudprovider.TargetNode route = "") /\
        (cloudprovider.Blackhole route = false ->
           exists srv, srv ∈ srvs /\
             hasAddress nodeAddresses srv (routers.NextHop item) /\
             cloudprovider.TargetNode route = mapServerToNodeName srv))
      (routers.Routes router) routes.
Proof.
  intros Hlist Haddrs Hget.
  destruct (eachServer_index srvs Haddrs ∅) as (m & Hm & HS & HN).
  exists (map (routeOf m) (routers.Routes router)). split.
  - unfold ListRoutes, bind, lift, foreachServer. rewrite Hlist, Hm, Hget. reflexivity.
  - apply Forall2_fmap_r, Forall_Forall2_diag, Forall_forall. intros item _.
    unfold compose, routeOf. cbv beta.
    destruct (m !! routers.NextHop item) as [n|] eqn:Hl; simpl.
    + apply HS in Hl as [Hl | (srv & Hin & Hh & Hn)]; [now rewrite lookup_empty in Hl|].
      refine (conj eq_refl (conj eq_refl (conj _ (conj _ _)))).
      * split; [discriminate|]. intros Hnone. exfalso. exact (Hnone srv Hin Hh).
      * discriminate.
      * intros _. exists srv. auto.
    + apply HN in Hl as [_ Hnone].
      refine (conj eq_refl (conj eq_refl (conj _ (conj _ _)))).
      * split; auto.
      * reflexivity.
      * discriminate.
Qed.
End ListRoutesProperties.

(** ** Deleting by swapping with the last element *)

Lemma storeLast_take_perm {A} (l : list A) k x :
  l !! k = Some x -> l ≡ₚ x :: take (length l - 1) (storeLast l k).
Proof.
  intros Hk. apply list_elem_of_split_length in Hk as (l1 & l2 & -> & ->).
  unfold storeLast. destruct l2 as [|z l2 _] using rev_ind.
  - rewrite length_app. simpl. replace (length l1 + 1 - 1) with (length l1) by lia.
    rewrite list_lookup_middle by reflexivity.
    rewrite list_insert_id by (now apply list_lookup_middle).
    rewrite take_app_length. symmetry. apply Permutation_cons_append.
  - replace (l1 ++ x :: l2 ++ [z]) with ((l1 ++ x :: l2) ++ [z])
      by (now rewrite <- app_assoc).
    rewrite length_app. simpl. replace (length (l1 ++ x :: l2) + 1 - 1) with (length (l1 ++ x :: l2)) by lia.
    rewrite list_lookup_middle by reflexivity.
    rewrite take_insert_lt by (rewrite length_app; simpl; lia).
    rewrite take_app_length.
    replace (length l1) with (length l1 + 0) at 1 by lia.
    rewrite insert_app_r. simpl.
    rewrite <- app_assoc. simpl. rewrite <- !Permutation_middle.
    now rewrite app_nil_r.
Qed.

(** ** The paths are all there is *)

Section Paths.
Context `{NetLib}.

Lemma revertRoutes_returns router orig w : fst (revertRoutes router orig w) = Ok tt.
Proof. unfold revertRoutes. now destruct (routers_Update _ _ w) as [[?|?] ?]. Qed.

Lemma revertPairs_returns port orig w : fst (revertPairs port orig w) = Ok tt.
Proof. unfold revertPairs. now destruct (neutronports_Update _ _ w) as [[?|?] ?]. Qed.

Ltac path_found := intros [= <- <-]; econstructor; solve [eauto].

Lemma CreateRoute_runs r cn nh route w res w' :
  CreateRoute r cn nh route w = (res, w') -> CreateRoute_path r route w res w'.
Proof.
  unfold CreateRoute, goFunc, CreateRoute_body, bind, lift, remote.
  destruct (nextHopOf r route) as [nexthop|e] eqn:Hn; simpl; [|path_found].
  destruct (routers_Get (RouterID (opts r)) w) as [[router|e] w1] eqn:Hg; simpl;
    [|path_found].
  destruct (existsb (sameRoute route nexthop) (routers.Routes router)) eqn:Hex; simpl.
  { apply (existsb_eq _ _ _ (sameRoute_true route nexthop)) in Hex. path_found. }
  apply (existsb_false_eq _ _ _ (sameRoute_true route nexthop)) in Hex.
  unfold updateRoutes, bind. simpl.
  destruct (routers_Update (routers.ID router) _ w1) as [[updated|e] w2] eqn:Hu; simpl;
    [|path_found].
  destruct (getPortIDByIP (compute r) (cloudprovider.TargetNode route) nexthop)
    as [portID|e] eqn:Hp; simpl; [|path_found].
  destruct (getPortByID portID w2) as [[port|e] w3] eqn:Hf; simpl; [|path_found].
  destruct (existsb (samePair route) (neutronports.AllowedAddressPairs port)) eqn:Hex'; simpl.
  { apply (existsb_eq _ _ _ (samePair_true route)) in Hex'. path_found. }
  apply (existsb_false_eq _ _ _ (samePair_true route)) in Hex'.
  unfold updateAllowedAddressPairs, bind. simpl.
  destruct (neutronports_Update (neutronports.ID port) _ w3) as [[updated'|e] w4] eqn:Hu';
    simpl; path_found.
Qed.

Lemma revertRoutes_same_router router rs orig :
  revertRoutes {| routers.ID := routers.ID router; routers.Routes := rs |} orig
  = revertRoutes router orig.
Proof. reflexivity. Qed.

Lemma DeleteRoute_runs r cn route w res w' :
  DeleteRoute r cn route w = (res, w') -> DeleteRoute_path r route w res w'.
Proof.
  unfold DeleteRoute, goFunc, DeleteRoute_body, bind, lift, remote.
  destruct (nextHopOf r route) as [nexthop|e] eqn:Hn; simpl; [|path_found].
  destruct (routers_Get (RouterID (opts r)) w) as [[router|e] w1] eqn:Hg; simpl;
    [|path_found].
  destruct (Z.eqb_spec (indexFrom (sameRoute route nexthop) 0 (routers.Routes router)) (-1))
    as [Hi|Hi]; simpl; [path_found|].
  unfold updateRoutes, bind. simpl.
  fold (stored (routers.Routes router) (indexFrom (sameRoute route nexthop) 0 (routers.Routes router))).
  fold (cut (routers.Routes router) (indexFrom (sameRoute route nexthop) 0 (routers.Routes router))).
  rewrite !revertRoutes_same_router.
  destruct (routers_Update (routers.ID router) _ w1) as [[updated|e] w2] eqn:Hu; simpl;
    [|path_found].
  destruct (getPortIDByIP (compute r) (cloudprovider.TargetNode route) nexthop)
    as [portID|e] eqn:Hp; simpl; [|path_found].
  destruct (getPortByID portID w2) as [[port|e] w3] eqn:Hf; simpl; [|path_found].
  destruct (Z.eqb_spec (indexFrom (samePair route) 0 (neutronports.AllowedAddressPairs port)) (-1))
    as [Hj|Hj]; simpl; [path_found|].
  unfold updateAllowedAddressPairs, bind. simpl.
  fold (stored (neutronports.AllowedAddressPairs port)
          (indexFrom (samePair route) 0 (neutronports.AllowedAddressPairs port))).
  fold (cut (neutronports.AllowedAddressPairs port)
          (indexFrom (samePair route) 0 (neutronports.AllowedAddressPairs port))).
  destruct (neutronports_Update (neutronports.ID port) _ w3) as [[updated'|e] w4] eqn:Hu';
    simpl; path_found.
Qed.
End Paths.

(** ** What each request does to the world *)

Lemma routers_Update_Ok id rs w updated w' :
  routers_Update id rs w = (Ok updated, w') ->
  journal w' = journal w ++ [RouterUpdate id rs None] /\
  routerTable w' = <[id := rs]> (routerTable w) /\
  portFilters w' = portFilters w /\
  faults w' = faults w /\ served w' = S (served w).
Proof.
  unfold routers_Update. destruct (outcome w (routerTable w !! id)); intros [= <- <-].
  simpl. auto.
Qed.

Lemma routers_Update_Err id rs w e w' :
  routers_Update id rs w = (Err e, w') ->
  journal w' = journal w ++ [RouterUpdate id rs (Some e)] /\
  routerTable w' = routerTable w /\
  portFilters w' = portFilters w /\
  faults w' = faults w /\ served w' = S (served w).
Proof.
  unfold routers_Update. destruct (outcome w (routerTable w !! id)); intros [= <- <-].
  simpl. auto.
Qed.

Lemma neutronports_Update_Ok id ps w updated w' :
  neutronports_Update id ps w = (Ok updated, w') ->
  journal w' = journal w ++ [PortUpdate id ps None] /\
  routerTable w' = routerTable w /\
  portFilters w' = <[id := ps]> (portFilters w) /\
  faults w' = faults w /\ served w' = S (served w).
Proof.
  unfold neutronports_Update. destruct (outcome w (portFilters w !! id)); intros [= <- <-].
  simpl. auto.
Qed.

Lemma neutronports_Update_Err id ps w e w' :
  neutronports_Update id ps w = (Err e, w') ->
  journal w' = journal w ++ [PortUpdate id ps (Some e)] /\
  routerTable w' = routerTable w /\
  portFilters w' = portFilters w /\
  faults w' = faults w /\ served w' = S (served w).
Proof.
  unfold neutronports_Update. destruct (outcome w (portFilters w !! id)); intros [= <- <-].
  simpl. auto.
Qed.

(** The events of a compensating route-table write: the request and, when
    it failed, the warning. *)
Lemma revertRoutes_effect router orig w :
  let w' := snd (revertRoutes router orig w) in
  exists o,
    journal w' = journal w ++ RouterUpdate (routers.ID router) orig o
                   :: match o with
                      | None => []
                      | Some e => [Warning "Unable to reset routes during error unwind: " e]
                      end /\
    routerTable w' = match o with
                     | None => <[routers.ID router := orig]> (routerTable w)
                     | Some _ => routerTable w
                     end /\
    portFilters w' = portFilters w.
Proof.
  unfold revertRoutes.
  destruct (routers_Update (routers.ID router) orig w) as [[updated|e] w1] eqn:Hu; simpl.
  - apply routers_Update_Ok in Hu as (Hj & Hr & Hp & _). exists None. auto.
  - apply routers_Update_Err in Hu as (Hj & Hr & Hp & _). exists (Some e).
    simpl. rewrite Hj, <- app_assoc. auto.
Qed.

(** ** Tactics for the journal and the tables *)

Lemma app_self_nil {A} (l k : list A) : l = l ++ k -> [] = k.
Proof.
  intros E. apply (app_inv_head l). now rewrite app_nil_r.
Qed.

(** Gathers what the requests of a path did to the journal and the tables. *)
Ltac world_facts :=
  repeat match goal with
  | E : routers_Get _ _ = (Ok _, _) |- _ =>
      apply routers_Get_frame in E as [-> [? ?]]
  | E : routers_Get _ _ = (Err _, _) |- _ =>
      apply routers_Get_frame in E as [-> _]
  | E : getPortByID _ _ = (Ok _, _) |- _ =>
      apply getPortByID_frame in E as [-> [? ?]]
  | E : getPortByID _ _ = (Err _, _) |- _ =>
      apply getPortByID_frame in E as [-> _]
  | E : routers_Update _ _ _ = (Ok _, _) |- _ =>
      apply routers_Update_Ok in E as (? & ? & ? & ? & ?)
  | E : routers_Update _ _ _ = (Err _, _) |- _ =>
      apply routers_Update_Err in E as (? & ? & ? & ? & ?)
  | E : neutronports_Update _ _ _ = (Ok _, _) |- _ =>
      apply neutronports_Update_Ok in E as (? & ? & ? & ? & ?)
  | E : neutronports_Update _ _ _ = (Err _, _) |- _ =>
      apply neutronports_Update_Err in E as (? & ? & ? & ? & ?)
  end.

(** Brings a hypothesis on the journal a run leaves to an equation between
    the events of the run and the events expected. *)
Ltac journal_events Hj :=
  repeat first
    [ progress simpl in Hj
    | match type of Hj with
      | context [journal ?x] =>
          match goal with
          | E : journal x = _ |- _ =>
              lazymatch E with Hj => fail | _ => rewrite E in Hj end
          end
      end ];
  rewrite <- ?app_assoc in Hj;
  first [ apply app_inv_head in Hj | apply app_self_nil in Hj ];
  simpl in Hj.

Ltac table_facts :=
  repeat first
    [ progress simpl
    | match goal with
      | E : routerTable ?x = _ |- context [routerTable ?x] => rewrite E
      | E : portFilters ?x = _ |- context [portFilters ?x] => rewrite E
      end ].

(** The journal a request leaves, keeping the equation of the request. *)
Ltac journal_facts :=
  repeat match goal with
  | E : routers_Get _ _ = (_, _) |- _ =>
      pose proof (proj1 (routers_Get_frame _ _ _ _ E)); revert E
  | E : getPortByID _ _ = (_, _) |- _ =>
      pose proof (proj1 (getPortByID_frame _ _ _ _ E)); revert E
  | E : routers_Update _ _ _ = (Ok _, _) |- _ =>
      pose proof (proj1 (routers_Update_Ok _ _ _ _ _ E)); revert E
  | E : routers_Update _ _ _ = (Err _, _) |- _ =>
      pose proof (proj1 (routers_Update_Err _ _ _ _ _ E)); revert E
  | E : neutronports_Update _ _ _ = (Ok _, _) |- _ =>
      pose proof (proj1 (neutronports_Update_Ok _ _ _ _ _ E)); revert E
  | E : neutronports_Update _ _ _ = (Err _, _) |- _ =>
      pose proof (proj1 (neutronports_Update_Err _ _ _ _ _ E)); revert E
  end; intros.

(** Rewrites the journal of the goal down to the journal of the first world. *)
Ltac journal_goal :=
  repeat first
    [ progress simpl
    | match goal with
      | E : journal ?x = _ |- context [journal ?x] => rewrite E
      end ];
  rewrite <- ?app_assoc; simpl; reflexivity.

(** ** CreateRoute when the filter-list write fails *)

Section CreateRollback.
Context `{NetLib}.

(** C1, amended: when the journal of a CreateRoute call shows the route-table
    write succeeding and the filter-list write that follows failing with
    [e], the call returns [e].  The table written first is the fetched one
    with the entry of the route appended; the one request after the two
    writes back the route table the router had before the call.  When that
    request succeeds every route table is what it was before the call; when
    it fails the warning is journalled and the router keeps the table with
    the new entry.  The filter lists are untouched either way. *)
Theorem CreateRoute_filter_write_failure r cn nh route w rid written pid pairs e rest :
  journal (snd (CreateRoute r cn nh route w))
    = journal w ++ RouterUpdate rid written None :: PortUpdate pid pairs (Some e) :: rest ->
  fst (CreateRoute r cn nh route w) = Err e /\
  exists table nexthop o,
    routerTable w !! RouterID (opts r) = Some table /\
    rid = RouterID (opts r) /\
    written = table ++ [entryOf route nexthop] /\
    rest = RouterUpdate rid table o
             :: match o with
                | None => []
                | Some e' => [Warning "Unable to reset routes during error unwind: " e']
                end /\
    routerTable (snd (CreateRoute r cn nh route w))
      = match o with
        | None => routerTable w
        | Some _ => <[rid := written]> (routerTable w)
        end /\
    portFilters (snd (CreateRoute r cn nh route w)) = portFilters w.
Proof.
  destruct (CreateRoute r cn nh route w) as [res w'] eqn:Hrun. simpl.
  apply CreateRoute_runs in Hrun. intros Hj.
  destruct Hrun; world_facts; simpl in *.
  all: try match type of Hj with
       | context [revertRoutes ?a ?b ?c] =>
           destruct (revertRoutes_effect a b c) as (o & Hrj & Hrr & Hrp)
       end.
  all: journal_events Hj; try discriminate.
  all: try (destruct o; discriminate).
  injection Hj as <- <- <- <- <- <-.
  split; [reflexivity|].
  exists (routers.Routes router), nexthop, o. split_and!; auto.
  - table_facts.
    match goal with E : routers.ID router = _ |- _ => rewrite E end.
    destruct o; [reflexivity|].
    rewrite insert_insert_eq. now apply insert_id.
  - now table_facts.
Qed.
End CreateRollback.

(** ** DeleteRoute *)

Section Deletion.
Context `{NetLib}.

Lemma length_storeLast {A} (s : list A) k : length (storeLast s k) = length s.
Proof.
  unfold storeLast. destruct (s !! (length s - 1)); [apply length_insert | reflexivity].
Qed.

(** The store changes nothing exactly when it hits the last element: only
    then do the aliases of the slice still show what was fetched. *)
Lemma storeLast_last {A} (s : list A) k :
  k = length s - 1 -> storeLast s k = s.
Proof.
  intros ->. unfold storeLast.
  destruct (s !! (length s - 1)) eqn:E; [now apply list_insert_id | reflexivity].
Qed.

Lemma cut_perm {A} (s : list A) k x :
  s !! k = Some x -> s ≡ₚ x :: cut s (Z.of_nat k).
Proof.
  intros Hk. unfold cut, stored. rewrite Nat2Z.id, length_storeLast.
  now apply storeLast_take_perm.
Qed.

Lemma found_entry route nexthop routes index :
  indexFrom (sameRoute route nexthop) 0 routes = index ->
  index <> (-1)%Z ->
  exists k, index = Z.of_nat k /\ routes !! k = Some (entryOf route nexthop).
Proof.
  intros E Hne.
  destruct (indexFrom_found (sameRoute route nexthop) routes 0 ltac:(lia))
    as [[E' _] | (k & x & E' & Hk & Px)]; [congruence|].
  apply sameRoute_true in Px as ->. exists k. split; [lia | exact Hk].
Qed.

Lemma found_pair route pairs index :
  indexFrom (samePair route) 0 pairs = index ->
  index <> (-1)%Z ->
  exists k, index = Z.of_nat k /\ pairs !! k = Some (pairOf route).
Proof.
  intros E Hne.
  destruct (indexFrom_found (samePair route) pairs 0 ltac:(lia))
    as [[E' _] | (k & x & E' & Hk & Px)]; [congruence|].
  apply samePair_true in Px as ->. exists k. split; [lia | exact Hk].
Qed.

(** C7: when DeleteRoute finds an entry with the DestinationCIDR and the
    next hop of the route, the first request it journals writes the fetched
    route table less one occurrence of that entry, in some order; when that
    write succeeds, the owning port is found and fetched, and its list has a
    pair for the DestinationCIDR, the next request writes the fetched list
    less one occurrence of that pair, in some order. *)
Theorem DeleteRoute_removes_one_entry r cn route w nexthop router w1 :
  nextHopOf r route = Ok nexthop ->
  routers_Get (RouterID (opts r)) w = (Ok router, w1) ->
  entryOf route nexthop ∈ routers.Routes router ->
  exists written o rest,
    journal (snd (DeleteRoute r cn route w))
      = journal w ++ RouterUpdate (RouterID (opts r)) written o :: rest /\
    routers.Routes router ≡ₚ entryOf route nexthop :: written /\
    forall portID port w3,
      o = None ->
      getPortIDByIP (compute r) (cloudprovider.TargetNode route) nexthop = Ok portID ->
      getPortByID portID (snd (routers_Update (RouterID (opts r)) written w1)) = (Ok port, w3) ->
      pairOf route ∈ neutronports.AllowedAddressPairs port ->
      exists written' o' rest',
        rest = PortUpdate portID written' o' :: rest' /\
        neutronports.AllowedAddressPairs port ≡ₚ pairOf route :: written'.
Proof.
  intros Hn Hg Hin.
  pose proof (routers_Get_frame _ _ _ _ Hg) as [_ [Hid _]].
  destruct (DeleteRoute r cn route w) as [res w'] eqn:Hrun. simpl.
  apply DeleteRoute_runs in Hrun.
  destruct Hrun as
    [ e Hn' | nh' e w1' Hn' Hg' | nh' router' w1' Hn' Hg' Hi
    | nh' router' w1' index e w2 Hn' Hg' Hi Hne Hu
    | nh' router' w1' index updated w2 e Hn' Hg' Hi Hne Hu Hp
    | nh' router' w1' index updated w2 portID e w3 Hn' Hg' Hi Hne Hu Hp Hf
    | nh' router' w1' index updated w2 portID port w3 Hn' Hg' Hi Hne Hu Hp Hf Hj
    | nh' router' w1' index updated w2 portID port w3 index' e w4
        Hn' Hg' Hi Hne Hu Hp Hf Hj Hne' Hu'
    | nh' router' w1' index updated w2 portID port w3 index' updated' w4
        Hn' Hg' Hi Hne Hu Hp Hf Hj Hne' Hu' ];
    rewrite Hn in Hn'; try discriminate; injection Hn' as <-;
    rewrite Hg in Hg'; try discriminate; injection Hg' as <- <-.
  { exfalso. destruct (indexFrom_present _ _ _ (sameRoute_true route nexthop) Hin)
      as (k & Hk & _). lia. }
  all: destruct (found_entry _ _ _ _ Hi Hne) as (k & -> & Hk);
    pose proof (cut_perm _ _ _ Hk) as Hperm; rewrite Hid in *.
  all: try (destruct (found_pair _ _ _ Hj Hne') as (k' & -> & Hk');
            pose proof (cut_perm _ _ _ Hk') as Hperm').
  all: try match goal with
       | |- context [revertRoutes ?a ?b ?c] =>
           destruct (revertRoutes_effect a b c) as (o & Hrj & _)
       end.
  all: journal_facts; repeat match goal with E : ?x = tick _ |- _ => subst x end.
  all: eexists (cut (routers.Routes router) (Z.of_nat k)), _, _.
  all: (split; [journal_goal | split; [exact Hperm|]]).
  all: intros portID' port' w3' Ho Hp' Hf' Hin'; try discriminate Ho.
  all: rewrite Hu in Hf'; simpl in Hf'; rewrite Hp in Hp'; try discriminate Hp';
    injection Hp' as <-; rewrite Hf in Hf'; try discriminate Hf';
    injection Hf' as <- <-.
  - exfalso. destruct (indexFrom_present _ _ _ (samePair_true route) Hin') as (j & Hj' & _).
    lia.
  - destruct (getPortByID_frame _ _ _ _ Hf) as [_ [<- _]].
    eexists _, _, _. split; [reflexivity | exact Hperm'].
  - destruct (getPortByID_frame _ _ _ _ Hf) as [_ [<- _]].
    eexists _, _, _. split; [reflexivity | exact Hperm'].
Qed.
End Deletion.

(** ** CreateRoute called twice *)

Lemma matching_app {A} (p : A -> bool) (l k : list A) :
  matching p (l ++ k) = matching p l + matching p k.
Proof. unfold matching. now rewrite List.filter_app, length_app. Qed.

Lemma matching_absent {A} (p : A -> bool) (x : A) (l : list A) :
  (forall y, p y = true <-> y = x) -> x ∉ l -> matching p l = 0.
Proof.
  intros Hp Hx. unfold matching. induction l as [|y l IH]; simpl; [reflexivity|].
  apply not_elem_of_cons in Hx as [Hne Hx]. destruct (p y) eqn:Py.
  - apply Hp in Py. congruence.
  - now apply IH.
Qed.

Lemma matching_present {A} (p : A -> bool) (x : A) (l : list A) :
  (forall y, p y = true <-> y = x) -> x ∈ l -> 1 <= matching p l.
Proof.
  intros Hp Hx. unfold matching. induction l as [|y l IH]; simpl; [inversion Hx|].
  destruct (p y) eqn:Py; simpl; [lia|].
  apply elem_of_cons in Hx as [-> | Hx]; [|now apply IH].
  assert (p y = true) by now apply Hp. congruence.
Qed.

Lemma matching_one {A} (p : A -> bool) (x : A) :
  (forall y, p y = true <-> y = x) -> matching p [x] = 1.
Proof.
  intros Hp. unfold matching. simpl. assert (E : p x = true) by now apply Hp.
  now rewrite E.
Qed.

Section Idempotence.
Context `{NetLib}.

(** C3, amended: CreateRoute returns success with no write request when the
    fetched route table already has an entry with the DestinationCIDR and
    the next hop of the route.  Called twice on a world whose route table
    holds at most one such entry and whose owning port holds at most one
    pair for the DestinationCIDR, the pair being there whenever the entry
    is, with the first call succeeding, it leaves exactly one such entry and
    exactly one such pair, and the second call journals no request. *)
Theorem CreateRoute_idempotent r cn nh route nexthop :
  nextHopOf r route = Ok nexthop ->
  (forall w router w1,
      routers_Get (RouterID (opts r)) w = (Ok router, w1) ->
      entryOf route nexthop ∈ routers.Routes router ->
      CreateRoute r cn nh route w = (Ok tt, w1) /\
      journal w1 = journal w /\
      routerTable w1 = routerTable w /\
      portFilters w1 = portFilters w)
  /\
  (forall w portID table pairs,
      getPortIDByIP (compute r) (cloudprovider.TargetNode route) nexthop = Ok portID ->
      routerTable w !! RouterID (opts r) = Some table ->
      portFilters w !! portID = Some pairs ->
      matching (sameRoute route nexthop) table <= 1 ->
      matching (samePair route) pairs <= 1 ->
      (entryOf route nexthop ∈ table -> pairOf route ∈ pairs) ->
      let first := CreateRoute r cn nh route w in
      let second := CreateRoute r cn nh route (snd first) in
      fst first = Ok tt ->
      journal (snd second) = journal (snd first) /\
      exists table' pairs',
        routerTable (snd second) !! RouterID (opts r) = Some table' /\
        portFilters (snd second) !! portID = Some pairs' /\
        matching (sameRoute route nexthop) table' = 1 /\
        matching (samePair route) pairs' = 1).
Proof.
  intros Hn. split.
  { intros w router w1 Hg Hin.
    split; [now apply (CreateRoute_existing r cn nh route w nexthop router)|].
    apply routers_Get_frame in Hg as [-> _]. simpl. auto. }
  intros w portID table pairs Hp Htab Hpairs Hone Hone' Hlock first second Hok.
  pose proof (sameRoute_true route nexthop) as Hsr.
  pose proof (samePair_true route) as Hsp.
  (* the world the first call leaves holds one entry and one pair *)
  assert (Hfirst : exists table' pairs',
            routerTable (snd first) !! RouterID (opts r) = Some table' /\
            portFilters (snd first) !! portID = Some pairs' /\
            matching (sameRoute route nexthop) table' = 1 /\
            matching (samePair route) pairs' = 1).
  { clear second. subst first.
    destruct (CreateRoute r cn nh route w) as [res w'] eqn:Hrun.
    simpl in *. subst res. apply CreateRoute_runs in Hrun.
    inversion Hrun as
      [ | | nh' router w1 Hn' Hg Hin
      | | |
      | nh' router w1 updated w2 pid port w3 Hn' Hg Hin Hu Hp' Hf Hin'
      |
      | nh' router w1 updated w2 pid port w3 updated' w4 Hn' Hg Hin Hu Hp' Hf Hin' Hu' ];
      subst; rewrite Hn in Hn'; injection Hn' as <-.
    - world_facts. simpl.
      assert (Heq : routers.Routes router = table) by congruence. rewrite Heq in *.
      exists table, pairs. split_and!; auto.
      + pose proof (matching_present _ _ _ Hsr Hin). lia.
      + pose proof (matching_present _ _ _ Hsp (Hlock Hin)). lia.
    - rewrite Hp in Hp'. injection Hp' as <-. world_facts. simpl in *.
      assert (Heq : routers.Routes router = table) by congruence. rewrite Heq in *.
      assert (Heq' : neutronports.AllowedAddressPairs port = pairs) by congruence.
      rewrite Heq' in *.
      exists (table ++ [entryOf route nexthop]), pairs. split_and!.
      + table_facts. match goal with E : routers.ID router = _ |- _ => rewrite E end.
        apply lookup_insert_eq.
      + now table_facts.
      + rewrite matching_app, (matching_absent _ _ _ Hsr Hin), (matching_one _ _ Hsr).
        reflexivity.
      + pose proof (matching_present _ _ _ Hsp Hin'). lia.
    - rewrite Hp in Hp'. injection Hp' as <-. world_facts. simpl in *.
      assert (Heq : routers.Routes router = table) by congruence. rewrite Heq in *.
      assert (Heq' : neutronports.AllowedAddressPairs port = pairs) by congruence.
      rewrite Heq' in *.
      exists (table ++ [entryOf route nexthop]), (pairs ++ [pairOf route]). split_and!.
      + table_facts. match goal with E : routers.ID router = _ |- _ => rewrite E end.
        apply lookup_insert_eq.
      + table_facts. match goal with E : neutronports.ID port = _ |- _ => rewrite E end.
        apply lookup_insert_eq.
      + rewrite matching_app, (matching_absent _ _ _ Hsr Hin), (matching_one _ _ Hsr).
        reflexivity.
      + rewrite matching_app, (matching_absent _ _ _ Hsp Hin'), (matching_one _ _ Hsp).
        reflexivity. }
  (* the second call finds the entry, or fails to fetch the router *)
  destruct Hfirst as (table' & pairs' & Ht & Hps & Hm & Hm').
  subst second. destruct (CreateRoute r cn nh route (snd first)) as [res w'] eqn:Hrun.
  simpl. apply CreateRoute_runs in Hrun.
  inversion Hrun; subst;
    match goal with E : nextHopOf _ _ = _ |- _ =>
      lazymatch E with Hn => fail | _ =>
        rewrite Hn in E; try discriminate E; injection E as <- end end;
    world_facts; simpl.
  1-2: split; [reflexivity|]; exists table', pairs'; auto.
  all: exfalso;
    match goal with E : entryOf _ _ ∉ routers.Routes ?router |- _ =>
      assert (routers.Routes router = table') as Heq by congruence;
      rewrite Heq in E; pose proof (matching_absent _ _ _ Hsr E); lia
    end.
Qed.
End Idempotence.

(** ** Compensation *)

Lemma revertPairs_effect port orig w :
  let w' := snd (revertPairs port orig w) in
  exists o,
    journal w' = journal w ++ PortUpdate (neutronports.ID port) orig o
                   :: match o with
                      | None => []
                      | Some e =>
                          [Warning "Unable to reset allowed-address-pairs during error unwind: " e]
                      end /\
    portFilters w' = match o with
                     | None => <[neutronports.ID port := orig]> (portFilters w)
                     | Some _ => portFilters w
                     end /\
    routerTable w' = routerTable w.
Proof.
  unfold revertPairs.
  destruct (neutronports_Update (neutronports.ID port) orig w) as [[updated|e] w1] eqn:Hu; simpl.
  - apply neutronports_Update_Ok in Hu as (Hj & Hr & Hp & _). exists None. auto.
  - apply neutronports_Update_Err in Hu as (Hj & Hr & Hp & _). exists (Some e).
    simpl. rewrite Hj, <- app_assoc. auto.
Qed.

Section Compensation.
Context `{NetLib}.

Ltac frame_found :=
  simpl; split;
  [ repeat (apply List.Forall_cons;
            [solve [ left; do 2 eexists; reflexivity | right; do 2 eexists; reflexivity ]|]);
    apply List.Forall_nil
  | unfold disarm; intros; solve [ eexists; reflexivity | congruence ] ].

Lemma CreateRoute_body_frame r route w :
  let run := CreateRoute_body r route (newFrame, w) in
  Forall compensation (deferred (fst (snd run))) /\
  (onFailure (fst (snd run)) = true -> deferred (fst (snd run)) <> [] ->
   exists e, fst run = Err e).
Proof.
  cbv zeta. unfold CreateRoute_body, bind, lift, remote.
  destruct (nextHopOf r route) as [nexthop|e]; simpl; [|frame_found].
  destruct (routers_Get (RouterID (opts r)) w) as [[router|e] w1]; simpl; [|frame_found].
  destruct (existsb (sameRoute route nexthop) (routers.Routes router)); simpl;
    [frame_found|].
  unfold updateRoutes, bind. simpl.
  destruct (routers_Update (routers.ID router) _ w1) as [[updated|e] w2]; simpl;
    [|frame_found].
  destruct (getPortIDByIP (compute r) (cloudprovider.TargetNode route) nexthop)
    as [portID|e]; simpl; [|frame_found].
  destruct (getPortByID portID w2) as [[port|e] w3]; simpl; [|frame_found].
  destruct (existsb (samePair route) (neutronports.AllowedAddressPairs port)); simpl;
    [frame_found|].
  unfold updateAllowedAddressPairs, bind. simpl.
  destruct (neutronports_Update (neutronports.ID port) _ w3) as [[updated'|e] w4];
    simpl; frame_found.
Qed.

Lemma DeleteRoute_body_frame r route w :
  let run := DeleteRoute_body r route (newFrame, w) in
  Forall compensation (deferred (fst (snd run))) /\
  (onFailure (fst (snd run)) = true -> deferred (fst (snd run)) <> [] ->
   exists e, fst run = Err e).
Proof.
  cbv zeta. unfold DeleteRoute_body, bind, lift, remote.
  destruct (nextHopOf r route) as [nexthop|e]; simpl; [|frame_found].
  destruct (routers_Get (RouterID (opts r)) w) as [[router|e] w1]; simpl; [|frame_found].
  destruct (indexFrom (sameRoute route nexthop) 0 (routers.Routes router) =? -1)%Z; simpl;
    [frame_found|].
  unfold updateRoutes, bind. simpl.
  destruct (routers_Update (routers.ID router) _ w1) as [[updated|e] w2]; simpl;
    [|frame_found].
  destruct (getPortIDByIP (compute r) (cloudprovider.TargetNode route) nexthop)
    as [portID|e]; simpl; [|frame_found].
  destruct (getPortByID portID w2) as [[port|e] w3]; simpl; [|frame_found].
  destruct (indexFrom (samePair route) 0 (neutronports.AllowedAddressPairs port) =? -1)%Z;
    simpl; [frame_found|].
  unfold updateAllowedAddressPairs, bind. simpl.
  destruct (neutronports_Update (neutronports.ID port) _ w3) as [[updated'|e] w4];
    simpl; frame_found.
Qed.

(** C8: CreateRoute and DeleteRoute return what their body returned.  The
    calls they defer are compensations; when the switch is still armed and
    one is pending, so that it runs, the body returned an error, and that
    error is the one the caller gets.  A compensation returns normally
    whatever its write does: a failed write is journalled with a warning
    that carries its error, and nothing of it reaches the caller. *)
Theorem compensation_failure_is_swallowed r cn nh route w :
  let created := CreateRoute_body r route (newFrame, w) in
  let deleted := DeleteRoute_body r route (newFrame, w) in
  (fst (CreateRoute r cn nh route w) = fst created /\
   fst (DeleteRoute r cn route w) = fst deleted) /\
  (forall run, run = created \/ run = deleted ->
     Forall compensation (deferred (fst (snd run))) /\
     (onFailure (fst (snd run)) = true -> deferred (fst (snd run)) <> [] ->
      exists e, fst run = Err e)) /\
  (forall router origRoutes w',
     fst (revertRoutes router origRoutes w') = Ok tt /\
     exists o,
       journal (snd (revertRoutes router origRoutes w'))
         = journal w' ++ RouterUpdate (routers.ID router) origRoutes o
             :: match o with
                | None => []
                | Some e' => [Warning "Unable to reset routes during error unwind: " e']
                end) /\
  (forall port origPairs w',
     fst (revertPairs port origPairs w') = Ok tt /\
     exists o,
       journal (snd (revertPairs port origPairs w'))
         = journal w' ++ PortUpdate (neutronports.ID port) origPairs o
             :: match o with
                | None => []
                | Some e' =>
                    [Warning "Unable to reset allowed-address-pairs during error unwind: " e']
                end).
Proof.
  intros created deleted. split_and!.
  - unfold CreateRoute, goFunc. fold created. now destruct created.
  - unfold DeleteRoute, goFunc. fold deleted. now destruct deleted.
  - intros run [-> | ->]; [apply CreateRoute_body_frame | apply DeleteRoute_body_frame].
  - intros router orig w'. split; [apply revertRoutes_returns|].
    destruct (revertRoutes_effect router orig w') as (o & Hj & _). eauto.
  - intros port orig w'. split; [apply revertPairs_returns|].
    destruct (revertPairs_effect port orig w') as (o & Hj & _). eauto.
Qed.
End Compensation.

(** * Further properties of the file *)

(** ** The order a deletion leaves *)

(** X1: deleting element [k] of a slice as DeleteRoute does (lines 291-292
    and 321-322) shortens it by one, puts the last element in place [k]
    when [k] is not the last place, and leaves every other element where
    it was. *)
Theorem cut_keeps_the_other_places {A} (s : list A) (k : nat) :
  k < length s ->
  length (cut s (Z.of_nat k)) = length s - 1 /\
  (forall j, j < length s - 1 -> j <> k -> cut s (Z.of_nat k) !! j = s !! j) /\
  (k < length s - 1 -> cut s (Z.of_nat k) !! k = s !! (length s - 1)).
Proof.
  intros Hk. unfold cut, stored. rewrite Nat2Z.id, length_storeLast.
  unfold storeLast.
  destruct (s !! (length s - 1)) as [x|] eqn:Hlast.
  2:{ apply lookup_ge_None in Hlast. lia. }
  split_and!.
  - rewrite length_take_le; [reflexivity | rewrite length_insert; lia].
  - intros j Hj Hne. rewrite lookup_take_lt by exact Hj.
    now apply list_lookup_insert_ne.
  - intros Hk'. rewrite lookup_take_lt by exact Hk'.
    now apply list_lookup_insert_eq.
Qed.

(** ** getPortIDByIP *)

Lemma owns_existsb ipAddress intf :
  existsb (fun fixedIP => String.eqb (attachinterfaces.IPAddress fixedIP) ipAddress)
          (attachinterfaces.FixedIPs intf) = true
  <-> owns ipAddress intf.
Proof.
  unfold owns. rewrite existsb_exists. split.
  - intros (f & Hin & E). exists f. split; [now apply list_elem_of_In | now apply String.eqb_eq].
  - intros (f & Hin & E). exists f. split; [now apply list_elem_of_In | now apply String.eqb_eq].
Qed.

Lemma findPortID_first ipAddress interfaces :
  (exists pre intf post,
      interfaces = pre ++ intf :: post /\
      Forall (fun i => ~ owns ipAddress i) pre /\
      owns ipAddress intf /\
      findPortID ipAddress interfaces = Some (attachinterfaces.PortID intf))
  \/ (Forall (fun i => ~ owns ipAddress i) interfaces /\
      findPortID ipAddress interfaces = None).
Proof.
  induction interfaces as [|i interfaces IH]; simpl.
  - right. split; [apply List.Forall_nil | reflexivity].
  - destruct (existsb _ (attachinterfaces.FixedIPs i)) eqn:Hex.
    + left. exists [], i, interfaces.
      split_and!; [reflexivity | apply List.Forall_nil | now apply owns_existsb | reflexivity].
    + assert (Hno : ~ owns ipAddress i).
      { intros Ho. apply owns_existsb in Ho. congruence. }
      destruct IH as [(pre & intf & post & -> & Hpre & Ho & Hf) | [Hall Hf]].
      * left. exists (i :: pre), intf, post.
        split_and!; [reflexivity | now apply List.Forall_cons | exact Ho | exact Hf].
      * right. split; [now apply List.Forall_cons | exact Hf].
Qed.

(** X2: with the server of the node and its attached interfaces read,
    getPortIDByIP returns the port of the first interface that has the
    address among its fixed IPs, and ErrNotFound when no interface has it. *)
Theorem getPortIDByIP_first_interface compute targetNode ipAddress srv interfaces :
  getServerByName compute targetNode true = Ok srv ->
  getAttachedInterfacesByID compute (servers.ID srv) = Ok interfaces ->
  (exists pre intf post,
      interfaces = pre ++ intf :: post /\
      Forall (fun i => ~ owns ipAddress i) pre /\
      owns ipAddress intf /\
      getPortIDByIP compute targetNode ipAddress = Ok (attachinterfaces.PortID intf))
  \/ (Forall (fun i => ~ owns ipAddress i) interfaces /\
      getPortIDByIP compute targetNode ipAddress = Err ErrNotFound).
Proof.
  intros Hs Hi. unfold getPortIDByIP. rewrite Hs, Hi.
  destruct (findPortID_first ipAddress interfaces)
    as [(pre & intf & post & E & Hpre & Ho & Hf) | [Hall Hf]]; rewrite Hf.
  - left. exists pre, intf, post. auto.
  - right. auto.
Qed.


(** ** A write and its unwinder *)

(** X3: on a router record just fetched, updateRoutes either fails, leaving
    every table as it was and returning no unwinder, or replaces the
    router's table and returns an unwinder that never fails: run next, the
    unwinder writes back the routes of the record, which restores every
    table when the service accepts the write; when it does not, a warning
    is journalled and the new table stays. *)
Theorem updateRoutes_then_unwind router newRoutes w :
  routerTable w !! routers.ID router = Some (routers.Routes router) ->
  match updateRoutes router newRoutes w with
  | (Err e, w1) =>
      journal w1 = journal w ++ [RouterUpdate (routers.ID router) newRoutes (Some e)] /\
      routerTable w1 = routerTable w /\
      portFilters w1 = portFilters w
  | (Ok unwind, w1) =>
      routerTable w1 = <[routers.ID router := newRoutes]> (routerTable w) /\
      portFilters w1 = portFilters w /\
      fst (unwind w1) = Ok tt /\
      exists o,
        journal (snd (unwind w1))
          = journal w ++ RouterUpdate (routers.ID router) newRoutes None
              :: RouterUpdate (routers.ID router) (routers.Routes router) o
              :: match o with
                 | None => []
                 | Some e' => [Warning "Unable to reset routes during error unwind: " e']
                 end /\
        routerTable (snd (unwind w1))
          = match o with
            | None => routerTable w
            | Some _ => <[routers.ID router := newRoutes]> (routerTable w)
            end /\
        portFilters (snd (unwind w1)) = portFilters w
  end.
Proof.
  intros Htab. unfold updateRoutes, bind.
  destruct (routers_Update (routers.ID router) newRoutes w) as [[updated|e] w1] eqn:Hu.
  - apply routers_Update_Ok in Hu as (Hj & Hr & Hp & _). simpl.
    split; [exact Hr|]. split; [exact Hp|]. split; [apply revertRoutes_returns|].
    destruct (revertRoutes_effect router (routers.Routes router) w1) as (o & Hoj & Hor & Hop).
    exists o. rewrite Hoj, Hor, Hop, Hj, Hr, Hp, <- app_assoc. split; [reflexivity|].
    split; [|reflexivity]. destruct o; [reflexivity|].
    rewrite insert_insert_eq. now apply insert_id.
  - apply routers_Update_Err in Hu as (Hj & Hr & Hp & _). auto.
Qed.

(** X4: the same for updateAllowedAddressPairs on a port record just
    fetched. *)
Theorem updateAllowedAddressPairs_then_unwind port newPairs w :
  portFilters w !! neutronports.ID port = Some (neutronports.AllowedAddressPairs port) ->
  match updateAllowedAddressPairs port newPairs w with
  | (Err e, w1) =>
      journal w1 = journal w ++ [PortUpdate (neutronports.ID port) newPairs (Some e)] /\
      routerTable w1 = routerTable w /\
      portFilters w1 = portFilters w
  | (Ok unwind, w1) =>
      portFilters w1 = <[neutronports.ID port := newPairs]> (portFilters w) /\
      routerTable w1 = routerTable w /\
      fst (unwind w1) = Ok tt /\
      exists o,
        journal (snd (unwind w1))
          = journal w ++ PortUpdate (neutronports.ID port) newPairs None
              :: PortUpdate (neutronports.ID port) (neutronports.AllowedAddressPairs port) o
              :: match o with
                 | None => []
                 | Some e' =>
                     [Warning "Unable to reset allowed-address-pairs during error unwind: " e']
                 end /\
        portFilters (snd (unwind w1))
          = match o with
            | None => portFilters w
            | Some _ => <[neutronports.ID port := newPairs]> (portFilters w)
            end /\
        routerTable (snd (unwind w1)) = routerTable w
  end.
Proof.
  intros Htab. unfold updateAllowedAddressPairs, bind.
  destruct (neutronports_Update (neutronports.ID port) newPairs w) as [[updated|e] w1] eqn:Hu.
  - apply neutronports_Update_Ok in Hu as (Hj & Hr & Hp & _). simpl.
    split; [exact Hp|]. split; [exact Hr|]. split; [apply revertPairs_returns|].
    destruct (revertPairs_effect port (neutronports.AllowedAddressPairs port) w1)
      as (o & Hoj & Hop & Hor).
    exists o. rewrite Hoj, Hor, Hop, Hj, Hr, Hp, <- app_assoc. split; [reflexivity|].
    split; [|reflexivity]. destruct o; [reflexivity|].
    rewrite insert_insert_eq. now apply insert_id.
  - apply neutronports_Update_Err in Hu as (Hj & Hr & Hp & _). auto.
Qed.


(** ** Runs of CreateRoute and DeleteRoute *)

(** Opens the compensation a path ends with. *)
Ltac open_revert :=
  try match goal with
      | |- context [revertRoutes ?a ?b ?c] =>
          destruct (revertRoutes_effect a b c) as (o & Hrj & Hrr & Hrp)
      | H : context [revertRoutes ?a ?b ?c] |- _ =>
          destruct (revertRoutes_effect a b c) as (o & Hrj & Hrr & Hrp)
      end.

Section FirstWrite.
Context `{NetLib}.

(** X5: when the route-table write of CreateRoute fails, the call returns
    that error at once: no other request is journalled, nothing is
    compensated and every table is as it was. *)
Theorem CreateRoute_route_write_failure r cn nh route w rid written e rest :
  journal (snd (CreateRoute r cn nh route w))
    = journal w ++ RouterUpdate rid written (Some e) :: rest ->
  fst (CreateRoute r cn nh route w) = Err e /\
  rest = [] /\
  routerTable (snd (CreateRoute r cn nh route w)) = routerTable w /\
  portFilters (snd (CreateRoute r cn nh route w)) = portFilters w.
Proof.
  destruct (CreateRoute r cn nh route w) as [res w'] eqn:Hrun. simpl.
  apply CreateRoute_runs in Hrun. intros Hj.
  destruct Hrun; world_facts; simpl in *; open_revert.
  all: journal_events Hj; try discriminate.
  injection Hj as <- <- <- <-. split_and!; auto; now table_facts.
Qed.

(** X6: the same for the route-table write of DeleteRoute. *)
Theorem DeleteRoute_route_write_failure r cn route w rid written e rest :
  journal (snd (DeleteRoute r cn route w))
    = journal w ++ RouterUpdate rid written (Some e) :: rest ->
  fst (DeleteRoute r cn route w) = Err e /\
  rest = [] /\
  routerTable (snd (DeleteRoute r cn route w)) = routerTable w /\
  portFilters (snd (DeleteRoute r cn route w)) = portFilters w.
Proof.
  destruct (DeleteRoute r cn route w) as [res w'] eqn:Hrun. simpl.
  apply DeleteRoute_runs in Hrun. intros Hj.
  destruct Hrun; world_facts; simpl in *; open_revert.
  all: journal_events Hj; try discriminate.
  injection Hj as <- <- <- <-. split_and!; auto; now table_facts.
Qed.
End FirstWrite.


Section Frame.
Context `{NetLib}.

Ltac other_tables Hid Hpid :=
  try match goal with o : option error |- _ => destruct o end;
  (split;
   [ table_facts; repeat (rewrite lookup_insert_ne by congruence); reflexivity
   | table_facts;
     first [ reflexivity
           | rewrite lookup_insert_ne;
             [ table_facts; reflexivity
             | intros <-; eapply Hpid; [eassumption | congruence] ] ] ]).

Lemma CreateRoute_frame r cn nh route w id pid :
  id <> RouterID (opts r) ->
  (forall nexthop, nextHopOf r route = Ok nexthop ->
     getPortIDByIP (compute r) (cloudprovider.TargetNode route) nexthop <> Ok pid) ->
  routerTable (snd (CreateRoute r cn nh route w)) !! id = routerTable w !! id /\
  portFilters (snd (CreateRoute r cn nh route w)) !! pid = portFilters w !! pid.
Proof.
  intros Hid Hpid.
  destruct (CreateRoute r cn nh route w) as [res w'] eqn:Hrun. simpl.
  apply CreateRoute_runs in Hrun.
  destruct Hrun; world_facts; simpl in *; open_revert.
  all: other_tables Hid Hpid.
Qed.

Lemma DeleteRoute_frame r cn route w id pid :
  id <> RouterID (opts r) ->
  (forall nexthop, nextHopOf r route = Ok nexthop ->
     getPortIDByIP (compute r) (cloudprovider.TargetNode route) nexthop <> Ok pid) ->
  routerTable (snd (DeleteRoute r cn route w)) !! id = routerTable w !! id /\
  portFilters (snd (DeleteRoute r cn route w)) !! pid = portFilters w !! pid.
Proof.
  intros Hid Hpid.
  destruct (DeleteRoute r cn route w) as [res w'] eqn:Hrun. simpl.
  apply DeleteRoute_runs in Hrun.
  destruct Hrun; world_facts; simpl in *; open_revert.
  all: other_tables Hid Hpid.
Qed.

(** X7: whatever they return, CreateRoute and DeleteRoute leave the route
    table of every router other than the configured one as it was, and the
    allowed address pairs of every port other than the one that owns the
    next hop of the route. *)
Theorem route_operations_touch_one_router_and_one_port r cn nh route w id pid :
  id <> RouterID (opts r) ->
  (forall nexthop, nextHopOf r route = Ok nexthop ->
     getPortIDByIP (compute r) (cloudprovider.TargetNode route) nexthop <> Ok pid) ->
  routerTable (snd (CreateRoute r cn nh route w)) !! id = routerTable w !! id /\
  portFilters (snd (CreateRoute r cn nh route w)) !! pid = portFilters w !! pid /\
  routerTable (snd (DeleteRoute r cn route w)) !! id = routerTable w !! id /\
  portFilters (snd (DeleteRoute r cn route w)) !! pid = portFilters w !! pid.
Proof.
  intros Hid Hpid.
  destruct (CreateRoute_frame r cn nh route w id pid Hid Hpid) as [? ?].
  destruct (DeleteRoute_frame r cn route w id pid Hid Hpid) as [? ?].
  auto.
Qed.
End Frame.


Section Success.
Context `{NetLib}.

(** X8: when CreateRoute returns success, the configured router has an
    entry for the DestinationCIDR with the next hop of the route, every
    write the call journalled succeeded (nothing failed and nothing was
    compensated), and, if the call wrote at all, the port that owns the
    next hop has a pair for the DestinationCIDR. *)
Theorem CreateRoute_success r cn nh route w :
  fst (CreateRoute r cn nh route w) = Ok tt ->
  exists nexthop table' evs,
    nextHopOf r route = Ok nexthop /\
    routerTable (snd (CreateRoute r cn nh route w)) !! RouterID (opts r) = Some table' /\
    entryOf route nexthop ∈ table' /\
    journal (snd (CreateRoute r cn nh route w)) = journal w ++ evs /\
    Forall succeeded evs /\
    (evs <> [] ->
     exists pid pairs',
       getPortIDByIP (compute r) (cloudprovider.TargetNode route) nexthop = Ok pid /\
       portFilters (snd (CreateRoute r cn nh route w)) !! pid = Some pairs' /\
       pairOf route ∈ pairs').
Proof.
  destruct (CreateRoute r cn nh route w) as [res w'] eqn:Hrun. simpl.
  apply CreateRoute_runs in Hrun. intros ->.
  inversion Hrun as
    [ | | nexthop router w1 Hn Hg Hin
    | | |
    | nexthop router w1 updated w2 pid port w3 Hn Hg Hin Hu Hp Hf Hin'
    |
    | nexthop router w1 updated w2 pid port w3 updated' w4 Hn Hg Hin Hu Hp Hf Hin' Hu' ];
    subst.
  - apply routers_Get_frame in Hg as [-> [Hid Htab]].
    exists nexthop, (routers.Routes router), []. simpl.
    rewrite app_nil_r. split_and!; auto. congruence.
  - apply routers_Get_frame in Hg as [-> [Hid Htab]].
    apply routers_Update_Ok in Hu as (Hj & Hr & Hps & _).
    apply getPortByID_frame in Hf as [-> [Hpid Hpt]]. simpl in *.
    exists nexthop, (routers.Routes router ++ [entryOf route nexthop]),
      [RouterUpdate (routers.ID router) (routers.Routes router ++ [entryOf route nexthop]) None].
    split_and!; auto.
    + rewrite Hr, Hid. apply lookup_insert_eq.
    + apply elem_of_app. right. now apply list_elem_of_singleton.
    + apply List.Forall_cons; [exact I | apply List.Forall_nil].
    + intros _. exists pid, (neutronports.AllowedAddressPairs port). auto.
  - apply routers_Get_frame in Hg as [-> [Hid Htab]].
    apply routers_Update_Ok in Hu as (Hj & Hr & Hps & _).
    apply getPortByID_frame in Hf as [-> [Hpid Hpt]].
    apply neutronports_Update_Ok in Hu' as (Hj' & Hr' & Hps' & _). simpl in *.
    exists nexthop, (routers.Routes router ++ [entryOf route nexthop]),
      [RouterUpdate (routers.ID router) (routers.Routes router ++ [entryOf route nexthop]) None;
       PortUpdate (neutronports.ID port)
         (neutronports.AllowedAddressPairs port ++ [pairOf route]) None].
    split_and!; auto.
    + rewrite Hr', Hr, Hid. apply lookup_insert_eq.
    + apply elem_of_app. right. now apply list_elem_of_singleton.
    + rewrite Hj', Hj, <- app_assoc. reflexivity.
    + repeat (apply List.Forall_cons; [exact I|]). apply List.Forall_nil.
    + intros _. exists pid, (neutronports.AllowedAddressPairs port ++ [pairOf route]).
      split_and!; auto.
      * rewrite Hps', Hpid. apply lookup_insert_eq.
      * apply elem_of_app. right. now apply list_elem_of_singleton.
Qed.
End Success.


(** ** Counting after a deletion *)

Lemma matching_perm {A} (p : A -> bool) (l k : list A) :
  l ≡ₚ k -> matching p l = matching p k.
Proof.
  unfold matching. induction 1 as [|x l k _ IH|x y l|l k m _ IH1 _ IH2]; simpl.
  - reflexivity.
  - destruct (p x); simpl; congruence.
  - destruct (p x), (p y); reflexivity.
  - congruence.
Qed.

Lemma matching_removed {A} (p : A -> bool) (x : A) (l l' : list A) :
  (forall y, p y = true <-> y = x) ->
  l ≡ₚ x :: l' -> matching p l' = matching p l - 1.
Proof.
  intros Hp Hperm. rewrite (matching_perm p _ _ Hperm). unfold matching. simpl.
  assert (E : p x = true) by now apply Hp. rewrite E. simpl. lia.
Qed.

Lemma indexFrom_none {A} (p : A -> bool) (x : A) (l : list A) :
  (forall y, p y = true <-> y = x) -> indexFrom p 0 l = (-1)%Z -> x ∉ l.
Proof.
  intros Hp E Hx.
  destruct (indexFrom_present p x l Hp Hx) as (k & Hk & _). lia.
Qed.

Section DeleteSuccess.
Context `{NetLib}.

(** X9: when DeleteRoute returns success, the configured router's table
    has one entry for the route less than before, or none as before: if
    the table had no such entry nothing was written, and otherwise the new
    table is the old one less one occurrence of the entry and the pairs of
    the owning port for the DestinationCIDR are one fewer, or none as
    before. *)
Theorem DeleteRoute_success r cn route w table :
  routerTable w !! RouterID (opts r) = Some table ->
  fst (DeleteRoute r cn route w) = Ok tt ->
  exists nexthop table',
    nextHopOf r route = Ok nexthop /\
    routerTable (snd (DeleteRoute r cn route w)) !! RouterID (opts r) = Some table' /\
    matching (sameRoute route nexthop) table'
      = matching (sameRoute route nexthop) table - 1 /\
    (entryOf route nexthop ∉ table ->
     table' = table /\ journal (snd (DeleteRoute r cn route w)) = journal w) /\
    (entryOf route nexthop ∈ table ->
     table ≡ₚ entryOf route nexthop :: table' /\
     exists pid pairs pairs',
       getPortIDByIP (compute r) (cloudprovider.TargetNode route) nexthop = Ok pid /\
       portFilters w !! pid = Some pairs /\
       portFilters (snd (DeleteRoute r cn route w)) !! pid = Some pairs' /\
       matching (samePair route) pairs' = matching (samePair route) pairs - 1).
Proof.
  intros Htable.
  destruct (DeleteRoute r cn route w) as [res w'] eqn:Hrun. simpl.
  apply DeleteRoute_runs in Hrun. intros ->.
  inversion Hrun as
    [ | | nexthop router w1 Hn Hg Hi
    | | |
    | nexthop router w1 index updated w2 pid port w3 Hn Hg Hi Hne Hu Hp Hf Hj
    |
    | nexthop router w1 index updated w2 pid port w3 index' updated' w4
        Hn Hg Hi Hne Hu Hp Hf Hj Hne' Hu' ];
    subst; pose proof (sameRoute_true route nexthop) as Hsr;
    pose proof (samePair_true route) as Hsp;
    apply routers_Get_frame in Hg as [-> [Hid Htab]];
    assert (Heq : routers.Routes router = table) by congruence;
    rewrite Heq in *.
  - apply (indexFrom_none _ _ _ Hsr) in Hi.
    exists nexthop, table. simpl. split_and!; auto.
    + rewrite (matching_absent _ _ _ Hsr Hi). reflexivity.
    + intros Hin. contradiction.
  - destruct (found_entry _ _ _ _ eq_refl Hne) as (k & Hk & Hlk).
    rewrite Hk in *. pose proof (cut_perm _ _ _ Hlk) as Hperm.
    apply routers_Update_Ok in Hu as (Hju & Hr & Hps & _).
    apply getPortByID_frame in Hf as [-> [Hpid Hpt]]. simpl in *.
    apply (indexFrom_none _ _ _ Hsp) in Hj.
    exists nexthop, (cut table (Z.of_nat k)). split_and!; auto.
    + rewrite Hr, Hid. apply lookup_insert_eq.
    + now apply (matching_removed _ _ _ _ Hsr).
    + intros Hout. exfalso. apply Hout. eapply list_elem_of_lookup_2. exact Hlk.
    + intros _. split; [exact Hperm|].
      exists pid, (neutronports.AllowedAddressPairs port), (neutronports.AllowedAddressPairs port).
      split_and!; auto; try congruence.
      rewrite (matching_absent _ _ _ Hsp Hj). reflexivity.
  - destruct (found_entry _ _ _ _ eq_refl Hne) as (k & Hk & Hlk).
    rewrite Hk in *. pose proof (cut_perm _ _ _ Hlk) as Hperm.
    destruct (found_pair _ _ _ eq_refl Hne') as (k' & Hk' & Hlk').
    rewrite Hk' in *. pose proof (cut_perm _ _ _ Hlk') as Hperm'.
    apply routers_Update_Ok in Hu as (Hju & Hr & Hps & _).
    apply getPortByID_frame in Hf as [-> [Hpid Hpt]].
    apply neutronports_Update_Ok in Hu' as (Hju' & Hr' & Hps' & _). simpl in *.
    exists nexthop, (cut table (Z.of_nat k)). split_and!; auto.
    + rewrite Hr', Hr, Hid. apply lookup_insert_eq.
    + now apply (matching_removed _ _ _ _ Hsr).
    + intros Hout. exfalso. apply Hout. eapply list_elem_of_lookup_2. exact Hlk.
    + intros _. split; [exact Hperm|].
      exists pid, (neutronports.AllowedAddressPairs port),
        (cut (neutronports.AllowedAddressPairs port) (Z.of_nat k')).
      split_and!; auto; try congruence.
      * rewrite Hps', Hpid. apply lookup_insert_eq.
      * now apply (matching_removed _ _ _ _ Hsp).
Qed.
End DeleteSuccess.


(** ** Creating, then deleting *)

Lemma indexFrom_appended {A} (p : A -> bool) (x : A) (l : list A) (i : Z) :
  (forall y, p y = true <-> y = x) -> x ∉ l ->
  indexFrom p i (l ++ [x]) = (i + Z.of_nat (length l))%Z.
Proof.
  intros Hp. revert i. induction l as [|y l IH]; intros i Hx; simpl.
  - assert (E : p x = true) by now apply Hp. rewrite E. lia.
  - apply not_elem_of_cons in Hx as [Hne Hx]. destruct (p y) eqn:Py.
    + apply Hp in Py. congruence.
    + rewrite IH by exact Hx. lia.
Qed.

Lemma cut_appended {A} (x : A) (l : list A) :
  cut (l ++ [x]) (Z.of_nat (length l)) = l.
Proof.
  unfold cut, stored. rewrite Nat2Z.id.
  rewrite storeLast_last by (rewrite length_app; simpl; lia).
  rewrite length_app. simpl. replace (length l + 1 - 1) with (length l) by lia.
  apply take_app_length.
Qed.

Section RoundTrip.
Context `{NetLib}.

(** X10: on a router without the entry and an owning port without the pair,
    a CreateRoute that succeeds followed by a DeleteRoute that succeeds
    leaves every route table and every list of allowed address pairs
    exactly as it was before the two calls, order included. *)
Theorem CreateRoute_then_DeleteRoute r cn nh route w nexthop pid table pairs :
  nextHopOf r route = Ok nexthop ->
  getPortIDByIP (compute r) (cloudprovider.TargetNode route) nexthop = Ok pid ->
  routerTable w !! RouterID (opts r) = Some table ->
  portFilters w !! pid = Some pairs ->
  entryOf route nexthop ∉ table ->
  pairOf route ∉ pairs ->
  let created := CreateRoute r cn nh route w in
  let deleted := DeleteRoute r cn route (snd created) in
  fst created = Ok tt ->
  fst deleted = Ok tt ->
  routerTable (snd deleted) = routerTable w /\
  portFilters (snd deleted) = portFilters w.
Proof.
  intros Hn Hp Htable Hpairs Hout Hout' created deleted Hc Hd.
  pose proof (sameRoute_true route nexthop) as Hsr.
  pose proof (samePair_true route) as Hsp.
  (* the world after the creation *)
  assert (Hcreated :
            routerTable (snd created)
              = <[RouterID (opts r) := table ++ [entryOf route nexthop]]> (routerTable w) /\
            portFilters (snd created)
              = <[pid := pairs ++ [pairOf route]]> (portFilters w)).
  { clear deleted Hd. subst created.
    destruct (CreateRoute r cn nh route w) as [res w'] eqn:Hrun.
    simpl in *. subst res. apply CreateRoute_runs in Hrun.
    inversion Hrun as
      [ | | nh' router w1 Hn' Hg Hin
      | | |
      | nh' router w1 updated w2 pid' port w3 Hn' Hg Hin Hu Hp' Hf Hin'
      |
      | nh' router w1 updated w2 pid' port w3 updated' w4 Hn' Hg Hin Hu Hp' Hf Hin' Hu' ];
      subst; rewrite Hn in Hn'; injection Hn' as <-;
      apply routers_Get_frame in Hg as [-> [Hid Htab]];
      assert (Heq : routers.Routes router = table) by congruence;
      rewrite Heq in *; try contradiction.
    - rewrite Hp in Hp'. injection Hp' as <-.
      apply routers_Update_Ok in Hu as (_ & Hr & Hps & _).
      apply getPortByID_frame in Hf as [-> [Hpid Hpt]]. simpl in *.
      assert (neutronports.AllowedAddressPairs port = pairs) as Heq' by congruence.
      rewrite Heq' in *. contradiction.
    - rewrite Hp in Hp'. injection Hp' as <-.
      apply routers_Update_Ok in Hu as (_ & Hr & Hps & _).
      apply getPortByID_frame in Hf as [-> [Hpid Hpt]].
      apply neutronports_Update_Ok in Hu' as (_ & Hr' & Hps' & _). simpl in *.
      assert (neutronports.AllowedAddressPairs port = pairs) as Heq' by congruence.
      rewrite Heq' in *. rewrite Hr', Hr, Hps', Hps, Hid, Hpid. auto. }
  destruct Hcreated as [Hrt Hpf].
  subst deleted. destruct (DeleteRoute r cn route (snd created)) as [res w'] eqn:Hrun.
  simpl in *. subst res. apply DeleteRoute_runs in Hrun.
  inversion Hrun as
    [ | | nh' router w1 Hn' Hg Hi
    | | |
    | nh' router w1 index updated w2 pid' port w3 Hn' Hg Hi Hne Hu Hp' Hf Hj
    |
    | nh' router w1 index updated w2 pid' port w3 index' updated' w4
        Hn' Hg Hi Hne Hu Hp' Hf Hj Hne' Hu' ];
    subst; rewrite Hn in Hn'; injection Hn' as <-;
    apply routers_Get_frame in Hg as [-> [Hid Htab]];
    rewrite Hrt, lookup_insert_eq in Htab; injection Htab as Heq;
    rewrite <- Heq in *.
  - rewrite (indexFrom_appended _ _ _ _ Hsr Hout) in Hi. lia.
  - rewrite Hp in Hp'. injection Hp' as <-.
    apply routers_Update_Ok in Hu as (_ & Hr & Hps & _).
    apply getPortByID_frame in Hf as [-> [Hpid Hpt]]. simpl in *.
    rewrite Hps, Hpf, lookup_insert_eq in Hpt. injection Hpt as Heq'.
    rewrite <- Heq' in Hj.
    rewrite (indexFrom_appended _ _ _ _ Hsp Hout') in Hj. lia.
  - rewrite Hp in Hp'. injection Hp' as <-.
    apply routers_Update_Ok in Hu as (_ & Hr & Hps & _).
    apply getPortByID_frame in Hf as [-> [Hpid Hpt]].
    apply neutronports_Update_Ok in Hu' as (_ & Hr' & Hps' & _). simpl in *.
    rewrite Hps, Hpf, lookup_insert_eq in Hpt. injection Hpt as Heq'.
    rewrite <- Heq' in *.
    rewrite (indexFrom_appended _ _ _ _ Hsr Hout) in Hr.
    rewrite (indexFrom_appended _ _ _ _ Hsp Hout') in Hps'.
    rewrite Z.add_0_l, cut_appended in Hr. rewrite Z.add_0_l, cut_appended in Hps'.
    rewrite Hr', Hr, Hrt, Hps', Hps, Hpf, Hid, Hpid.
    rewrite !insert_insert_eq. split; now apply insert_id.
Qed.
End RoundTrip.


(** ** The filter list is written once *)

Section Commit.
Context `{NetLib}.

Ltac commits Hj :=
  journal_events Hj; subst;
  try match goal with o : option error |- _ => destruct o end;
  (split;
   [ unfold matching; simpl; lia
   | intros pid' ps' Hin; apply list_elem_of_In in Hin; simpl in Hin;
     repeat match goal with
            | Hin : _ \/ _ |- _ => destruct Hin as [Hin|Hin]
            | Hin : False |- _ => destruct Hin
            end;
     try discriminate Hin;
     (split; [reflexivity | repeat (apply List.Forall_cons; [exact I|]); apply List.Forall_nil]) ]).

Lemma CreateRoute_commit r cn nh route w evs :
  journal (snd (CreateRoute r cn nh route w)) = journal w ++ evs ->
  matching isPortUpdate evs <= 1 /\
  (forall pid ps, PortUpdate pid ps None ∈ evs ->
     fst (CreateRoute r cn nh route w) = Ok tt /\ Forall succeeded evs).
Proof.
  destruct (CreateRoute r cn nh route w) as [res w'] eqn:Hrun. simpl.
  apply CreateRoute_runs in Hrun. intros Hj.
  destruct Hrun; world_facts; simpl in *; open_revert.
  all: commits Hj.
Qed.

Lemma DeleteRoute_commit r cn route w evs :
  journal (snd (DeleteRoute r cn route w)) = journal w ++ evs ->
  matching isPortUpdate evs <= 1 /\
  (forall pid ps, PortUpdate pid ps None ∈ evs ->
     fst (DeleteRoute r cn route w) = Ok tt /\ Forall succeeded evs).
Proof.
  destruct (DeleteRoute r cn route w) as [res w'] eqn:Hrun. simpl.
  apply DeleteRoute_runs in Hrun. intros Hj.
  destruct Hrun; world_facts; simpl in *; open_revert.
  all: commits Hj.
Qed.

(** X11: a call of CreateRoute or DeleteRoute journals at most one write of
    allowed address pairs, so that a filter list is never written back; and
    once that write has succeeded the call returns success with every
    write it journalled successful: nothing can fail, and nothing is
    compensated, after the second write. *)
Theorem filter_write_commits r cn nh route w created deleted :
  journal (snd (CreateRoute r cn nh route w)) = journal w ++ created ->
  journal (snd (DeleteRoute r cn route w)) = journal w ++ deleted ->
  (matching isPortUpdate created <= 1 /\
   forall pid ps, PortUpdate pid ps None ∈ created ->
     fst (CreateRoute r cn nh route w) = Ok tt /\ Forall succeeded created) /\
  (matching isPortUpdate deleted <= 1 /\
   forall pid ps, PortUpdate pid ps None ∈ deleted ->
     fst (DeleteRoute r cn route w) = Ok tt /\ Forall succeeded deleted).
Proof.
  intros Hc Hd. split; [now apply CreateRoute_commit | now apply DeleteRoute_commit].
Qed.
End Commit.


(** ** What DeleteRoute writes back *)

Lemma stored_unchanged {A} (s : list A) (k : nat) (x : A) :
  s !! k = Some x ->
  stored s (Z.of_nat k) = s <-> s !! (length s - 1) = Some x.
Proof.
  intros Hk. unfold stored, storeLast. rewrite Nat2Z.id.
  destruct (s !! (length s - 1)) as [y|] eqn:Hlast.
  - split.
    + intros E. assert (Hy : (<[k:=y]> s) !! k = Some y).
      { apply list_lookup_insert_eq. now apply lookup_lt_Some in Hk. }
      rewrite E, Hk in Hy. congruence.
    + intros [= ->]. now apply list_insert_id.
  - apply lookup_ge_None in Hlast. apply lookup_lt_Some in Hk. lia.
Qed.

Section Rollback.
Context `{NetLib}.

(** X12: when DeleteRoute compensates after its route-table write, the
    table it writes back is the fetched table with the place of the deleted
    entry overwritten by the last entry: the store of line 291 shows through
    the snapshot updateRoutes takes.  It is the fetched table exactly when
    the last entry of the fetched table is itself an entry for the route;
    the call returns an error either way. *)
Theorem DeleteRoute_rollback_payload r cn route w written rest id back answer :
  journal (snd (DeleteRoute r cn route w))
    = journal w ++ RouterUpdate (RouterID (opts r)) written None :: rest ->
  RouterUpdate id back answer ∈ rest ->
  exists nexthop table k,
    nextHopOf r route = Ok nexthop /\
    routerTable w !! RouterID (opts r) = Some table /\
    table !! k = Some (entryOf route nexthop) /\
    written = cut table (Z.of_nat k) /\
    id = RouterID (opts r) /\
    back = stored table (Z.of_nat k) /\
    (back = table <-> table !! (length table - 1) = Some (entryOf route nexthop)) /\
    exists e, fst (DeleteRoute r cn route w) = Err e.
Proof.
  destruct (DeleteRoute r cn route w) as [res w'] eqn:Hrun. simpl.
  apply DeleteRoute_runs in Hrun. intros Hj Hin.
  destruct Hrun as
    [ e Hn | nexthop e w1 Hn Hg | nexthop router w1 Hn Hg Hi
    | nexthop router w1 index e w2 Hn Hg Hi Hne Hu
    | nexthop router w1 index updated w2 e Hn Hg Hi Hne Hu Hp
    | nexthop router w1 index updated w2 portID e w3 Hn Hg Hi Hne Hu Hp Hf
    | nexthop router w1 index updated w2 portID port w3 Hn Hg Hi Hne Hu Hp Hf Hj'
    | nexthop router w1 index updated w2 portID port w3 index' e w4
        Hn Hg Hi Hne Hu Hp Hf Hj' Hne' Hu'
    | nexthop router w1 index updated w2 portID port w3 index' updated' w4
        Hn Hg Hi Hne Hu Hp Hf Hj' Hne' Hu' ];
    try (destruct (found_entry _ _ _ _ Hi Hne) as (k & -> & Hk));
    world_facts; simpl in *; open_revert.
  all: journal_events Hj; try discriminate.
  all: injection Hj as _ <- <-.
  all: apply list_elem_of_In in Hin; try destruct o; simpl in Hin.
  all: repeat match type of Hin with _ \/ _ => destruct Hin as [Hin|Hin] end;
    try discriminate Hin; try contradiction.
  all: injection Hin as <- <- <-.
  all: exists nexthop, (routers.Routes router), k.
  all: split_and!; auto; try (now apply stored_unchanged); eauto.
Qed.
End Rollback.


(** ** More on ListRoutes *)

Section ListRoutesWalk.
Variable nodeAddresses : servers.Server -> result (list v1.NodeAddress).
Variable mapServerToNodeName : servers.Server -> NodeName.

Local Abbreviation indexAddrs name :=
  (fold_left (fun (m : gmap string NodeName) addr => <[v1.Address addr := name]> m)).
Local Abbreviation readable :=
  (fun srv => exists addrs, nodeAddresses srv = Ok addrs).

Lemma indexAddrs_hit name addrs (m0 : gmap string NodeName) a :
  (exists addr, addr ∈ addrs /\ v1.Address addr = a) \/ m0 !! a = Some name ->
  indexAddrs name addrs m0 !! a = Some name.
Proof.
  revert m0. induction addrs as [|x addrs IH]; intros m0; simpl.
  - intros [(addr & Hin & _) | Hl]; [inversion Hin | exact Hl].
  - intros [(addr & Hin & Ha) | Hl]; apply IH.
    + apply elem_of_cons in Hin as [-> | Hin].
      * right. rewrite Ha. apply lookup_insert_eq.
      * left. exists addr. auto.
    + right. destruct (decide (v1.Address x = a)) as [E|E].
      * rewrite E. apply lookup_insert_eq.
      * now rewrite lookup_insert_ne.
Qed.

(** The walk over a list passes the servers it can read and continues on
    the rest with the index they leave. *)
Lemma eachServer_app pre :
  Forall readable pre ->
  forall m0 : gmap string NodeName,
  exists m, forall post,
    eachServer (indexServer nodeAddresses mapServerToNodeName) (pre ++ post) m0
      = eachServer (indexServer nodeAddresses mapServerToNodeName) post m.
Proof.
  induction 1 as [|srv pre [addrs Haddrs] _ IH]; intros m0; simpl.
  - exists m0. reflexivity.
  - unfold indexServer at 1. rewrite Haddrs.
    destruct (IH (indexAddrs (mapServerToNodeName srv) addrs m0)) as (m & Hm).
    exists m. intros post. apply Hm.
Qed.

(** X13: ListRoutes fails with the error of the first server whose
    addresses cannot be read; the router is not fetched then, so that no
    request reaches the network service and the world is as it was. *)
Theorem ListRoutes_first_unreadable_server r cn w pre srv post e :
  listServers (compute r) = Ok (pre ++ srv :: post) ->
  Forall (fun s => exists addrs, nodeAddresses s = Ok addrs) pre ->
  nodeAddresses srv = Err e ->
  ListRoutes nodeAddresses mapServerToNodeName r cn w = (Err e, w).
Proof.
  intros Hlist Hpre Hsrv.
  destruct (eachServer_app pre Hpre ∅) as (m & Hm).
  unfold ListRoutes, bind, lift, foreachServer. rewrite Hlist, Hm. simpl.
  unfold indexServer. now rewrite Hsrv.
Qed.

(** X14: whatever it returns, ListRoutes only reads: the journal of write
    requests, every route table and every list of allowed address pairs
    are as they were, and it sends at most one request. *)
Theorem ListRoutes_only_reads r cn w :
  let run := ListRoutes nodeAddresses mapServerToNodeName r cn w in
  journal (snd run) = journal w /\
  routerTable (snd run) = routerTable w /\
  portFilters (snd run) = portFilters w /\
  served (snd run) <= S (served w).
Proof.
  unfold ListRoutes, bind, lift. simpl.
  destruct (foreachServer _ _ _) as [m|e]; simpl; [|split_and!; auto].
  destruct (routers_Get (RouterID (opts r)) w) as [[router|e] w1] eqn:Hg;
    apply routers_Get_frame in Hg as [-> _]; simpl; split_and!; auto.
Qed.

(** X15: when several listed servers have the next-hop address of an
    entry, the Route for the entry names the last of them in the listing:
    each server overwrites what the servers before it left in the index. *)
Theorem ListRoutes_last_server_names_the_target r cn w pre srv post router w1 i item :
  listServers (compute r) = Ok (pre ++ srv :: post) ->
  Forall (fun s => exists addrs, nodeAddresses s = Ok addrs) (pre ++ srv :: post) ->
  routers_Get (RouterID (opts r)) w = (Ok router, w1) ->
  routers.Routes router !! i = Some item ->
  hasAddress nodeAddresses srv (routers.NextHop item) ->
  (forall s, s ∈ post -> ~ hasAddress nodeAddresses s (routers.NextHop item)) ->
  exists routes,
    ListRoutes nodeAddresses mapServerToNodeName r cn w = (Ok routes, w1) /\
    routes !! i =
      Some {| cloudprovider.Name := routers.DestinationCIDR item;
              cloudprovider.TargetNode := mapServerToNodeName srv;
              cloudprovider.Blackhole := false;
              cloudprovider.DestinationCIDR := routers.DestinationCIDR item |}.
Proof.
  intros Hlist Hall Hget Hitem (addrs & addr & Haddrs & Hin & Ha) Hpost.
  apply Forall_app in Hall as [Hpre Hrest].
  apply Forall_cons in Hrest as [_ Hrest].
  destruct (eachServer_app pre Hpre ∅) as (m1 & Hm1).
  destruct (eachServer_index nodeAddresses mapServerToNodeName post Hrest
              (indexAddrs (mapServerToNodeName srv) addrs m1)) as (m & Hm & HS & HN).
  assert (Hl : m !! routers.NextHop item = Some (mapServerToNodeName srv)).
  { assert (Hhit : indexAddrs (mapServerToNodeName srv) addrs m1 !! routers.NextHop item
                   = Some (mapServerToNodeName srv)).
    { apply indexAddrs_hit. left. exists addr. auto. }
    destruct (m !! routers.NextHop item) as [n|] eqn:Hl.
    - apply HS in Hl as [Hl | (s & Hs & Hh & _)]; [congruence|].
      exfalso. exact (Hpost s Hs Hh).
    - apply HN in Hl as [Hl _]. congruence. }
  exists (map (routeOf m) (routers.Routes router)). split.
  - unfold ListRoutes, bind, lift, foreachServer. rewrite Hlist, Hm1. simpl.
    unfold indexServer at 1. rewrite Haddrs, Hm, Hget. reflexivity.
  - rewrite list_lookup_fmap, Hitem.
    change (routeOf m <$> Some item) with (Some (routeOf m item)).
    unfold routeOf, NodeName in *. now rewrite Hl.
Qed.
End ListRoutesWalk.


(** ** Deleting twice *)

Section DeleteTwice.
Context `{NetLib}.

(** X16: after a DeleteRoute that succeeds on a table with at most one
    entry for the route, a second DeleteRoute for the same route writes
    nothing: the journal, the route tables and the lists of allowed address
    pairs stay as the first call left them, and the second call returns
    success unless its fetch of the router fails. *)
Theorem DeleteRoute_twice r cn route w nexthop table :
  nextHopOf r route = Ok nexthop ->
  routerTable w !! RouterID (opts r) = Some table ->
  matching (sameRoute route nexthop) table <= 1 ->
  let first := DeleteRoute r cn route w in
  let second := DeleteRoute r cn route (snd first) in
  fst first = Ok tt ->
  journal (snd second) = journal (snd first) /\
  routerTable (snd second) = routerTable (snd first) /\
  portFilters (snd second) = portFilters (snd first) /\
  (fst second = Ok tt \/
   exists e, fst second = Err e /\
     fst (routers_Get (RouterID (opts r)) (snd first)) = Err e).
Proof.
  intros Hn Htable Hone first second Hfirst.
  pose proof (sameRoute_true route nexthop) as Hsr.
  (* the table the first call leaves has no entry for the route *)
  assert (Hleft : exists table',
             routerTable (snd first) !! RouterID (opts r) = Some table' /\
             entryOf route nexthop ∉ table').
  { clear second. subst first.
    destruct (DeleteRoute r cn route w) as [res w'] eqn:Hrun.
    simpl in *. subst res. apply DeleteRoute_runs in Hrun.
    inversion Hrun as
      [ | | nh' router w1 Hn' Hg Hi
      | | |
      | nh' router w1 index updated w2 pid port w3 Hn' Hg Hi Hne Hu Hp Hf Hj
      |
      | nh' router w1 index updated w2 pid port w3 index' updated' w4
          Hn' Hg Hi Hne Hu Hp Hf Hj Hne' Hu' ];
      subst; rewrite Hn in Hn'; injection Hn' as <-;
      apply routers_Get_frame in Hg as [-> [Hid Htab]];
      assert (Heq : routers.Routes router = table) by congruence;
      rewrite Heq in *.
    - exists table. split; [exact Htable|]. now apply (indexFrom_none _ _ _ Hsr).
    - destruct (found_entry _ _ _ _ eq_refl Hne) as (k & Hk & Hlk).
      rewrite Hk in *. pose proof (cut_perm _ _ _ Hlk) as Hperm.
      apply routers_Update_Ok in Hu as (_ & Hr & _).
      apply getPortByID_frame in Hf as [-> _]. simpl.
      exists (cut table (Z.of_nat k)). split.
      + rewrite Hr, Hid. apply lookup_insert_eq.
      + intros Hin. apply (matching_present _ _ _ Hsr) in Hin.
        rewrite (matching_removed _ _ _ _ Hsr Hperm) in Hin. lia.
    - destruct (found_entry _ _ _ _ eq_refl Hne) as (k & Hk & Hlk).
      rewrite Hk in *. pose proof (cut_perm _ _ _ Hlk) as Hperm.
      apply routers_Update_Ok in Hu as (_ & Hr & _).
      apply getPortByID_frame in Hf as [-> _].
      apply neutronports_Update_Ok in Hu' as (_ & Hr' & _). simpl in *.
      exists (cut table (Z.of_nat k)). split.
      + rewrite Hr', Hr, Hid. apply lookup_insert_eq.
      + intros Hin. apply (matching_present _ _ _ Hsr) in Hin.
        rewrite (matching_removed _ _ _ _ Hsr Hperm) in Hin. lia. }
  destruct Hleft as (table' & Htable' & Hout).
  subst second. generalize dependent (snd first). clear first Hfirst.
  intros w0 Htable'.
  destruct (routers_Get (RouterID (opts r)) w0) as [[router|e] w1] eqn:Hg.
  - rewrite (DeleteRoute_absent r cn route w0 nexthop router w1 Hn Hg).
    + apply routers_Get_frame in Hg as [-> _]. simpl. auto.
    + apply routers_Get_frame in Hg as [_ [_ Htab]]. congruence.
  - assert (Hrun : DeleteRoute r cn route w0 = (Err e, w1)).
    { unfold DeleteRoute, goFunc, DeleteRoute_body, bind, lift. rewrite Hn.
      rewrite remote_run, Hg. reflexivity. }
    rewrite Hrun. apply routers_Get_frame in Hg as [-> _]. simpl.
    split_and!; auto. right. exists e. auto.
Qed.
End DeleteTwice.


(** ** What CreateRoute writes back *)

Section CreateUnwind.
Context `{NetLib}.

(** X17: wherever CreateRoute fails after its route-table write (the port
    of the next hop is not found, the port cannot be fetched or the write
    of the pairs fails), the table its compensation writes back is the
    table it fetched, entry for entry; the call returns an error, the
    lists of allowed address pairs are as they were, and when the
    compensating write is accepted the route tables are as they were. *)
Theorem CreateRoute_rollback_payload r cn nh route w written rest id back answer :
  journal (snd (CreateRoute r cn nh route w))
    = journal w ++ RouterUpdate (RouterID (opts r)) written None :: rest ->
  RouterUpdate id back answer ∈ rest ->
  exists nexthop table,
    nextHopOf r route = Ok nexthop /\
    routerTable w !! RouterID (opts r) = Some table /\
    written = table ++ [entryOf route nexthop] /\
    id = RouterID (opts r) /\
    back = table /\
    (exists e, fst (CreateRoute r cn nh route w) = Err e) /\
    portFilters (snd (CreateRoute r cn nh route w)) = portFilters w /\
    (answer = None -> routerTable (snd (CreateRoute r cn nh route w)) = routerTable w).
Proof.
  destruct (CreateRoute r cn nh route w) as [res w'] eqn:Hrun. simpl.
  apply CreateRoute_runs in Hrun. intros Hj Hin.
  destruct Hrun as
    [ e Hn | nexthop e w1 Hn Hg | nexthop router w1 Hn Hg Hi
    | nexthop router w1 e w2 Hn Hg Hi Hu
    | nexthop router w1 updated w2 e Hn Hg Hi Hu Hp
    | nexthop router w1 updated w2 portID e w3 Hn Hg Hi Hu Hp Hf
    | nexthop router w1 updated w2 portID port w3 Hn Hg Hi Hu Hp Hf Hj'
    | nexthop router w1 updated w2 portID port w3 e w4 Hn Hg Hi Hu Hp Hf Hj' Hu'
    | nexthop router w1 updated w2 portID port w3 updated' w4 Hn Hg Hi Hu Hp Hf Hj' Hu' ];
    world_facts; simpl in *; open_revert.
  all: journal_events Hj; try discriminate.
  all: injection Hj as _ <- <-.
  all: apply list_elem_of_In in Hin; try destruct o; simpl in Hin.
  all: repeat match type of Hin with _ \/ _ => destruct Hin as [Hin|Hin] end;
    try discriminate Hin; try contradiction.
  all: injection Hin as <- <- <-.
  all: exists nexthop, (routers.Routes router).
  all: split_and!; eauto; table_facts; try discriminate; try reflexivity.
  all: intros _;
    match goal with E : routers.ID _ = _ |- _ => rewrite E end;
    rewrite insert_insert_eq; now apply insert_id.
Qed.
End CreateUnwind.


(** * The properties on the example cloud *)

Import Demo.

(** The end-to-end scenario of the specification: the route is created on an
    empty router, then deleted. *)
Example create_then_delete :
  let created := CreateRoute engine "c" "h" route1 (world [] [] noFault) in
  let deleted := DeleteRoute engine "c" route1 (snd created) in
  fst created = Ok tt /\
  routerTable (snd created) !! "r1" = Some [entry1] /\
  portFilters (snd created) !! "p1" = Some [pair1] /\
  fst deleted = Ok tt /\
  routerTable (snd deleted) !! "r1" = Some [] /\
  portFilters (snd deleted) !! "p1" = Some [].
Proof. vm_compute. repeat split. Qed.

(** C2: DeleteRoute on a router with two routes, deleting the first, when
    the port fetch fails after the route-table write: the compensation
    writes back a table in which the deleted entry is lost and the last one
    stands twice, not the table the router had before the call. *)
Theorem DeleteRoute_unwind_writes_altered_table :
  let w := world [entry1; entry2] [pair1] (failAt 2 (ErrRemote 500)) in
  let run := DeleteRoute engine "c" route1 w in
  fst run = Err (ErrRemote 500) /\
  journal (snd run) = [ RouterUpdate "r1" [entry2] None;
                        RouterUpdate "r1" [entry2; entry2] None ] /\
  routerTable w !! "r1" = Some [entry1; entry2] /\
  routerTable (snd run) !! "r1" = Some [entry2; entry2].
Proof. vm_compute. repeat split. Qed.

Lemma entry1_not_entry2 : entry1 ∉ [entry2].
Proof. intros Hin. apply list_elem_of_In in Hin. destruct Hin as [E|[]]. discriminate E. Defined.

Lemma DeleteRoute_absent_route_is_noop_witness :
  let w := world [entry2] [] noFault in
  let run := DeleteRoute engine "c" route1 w in
  nextHopOf engine route1 = Ok "10.0.0.5" /\
  routers_Get "r1" w = (Ok (router1 [entry2]), tick w) /\
  (entryOf route1 "10.0.0.5" ∉ [entry2]) /\
  fst run = Ok tt /\
  journal (snd run) = journal w /\
  routerTable (snd run) = routerTable w /\
  portFilters (snd run) = portFilters w.
Proof.
  intros w run.
  assert (Hn : nextHopOf engine route1 = Ok "10.0.0.5") by reflexivity.
  assert (Hg : routers_Get "r1" w = (Ok (router1 [entry2]), tick w)) by reflexivity.
  split; [exact Hn|]. split; [exact Hg|]. split; [exact entry1_not_entry2|].
  exact (DeleteRoute_absent_route_is_noop engine "c" route1 w "10.0.0.5"
           (router1 [entry2]) (tick w) Hn Hg entry1_not_entry2).
Defined.

Lemma unparseable_cidr_finds_no_address_witness :
  let w := world [] [] noFault in
  IsIPv4 "<nil>" = false /\
  IsIPv6 "<nil>" = false /\
  ParseCIDR (cloudprovider.DestinationCIDR badRoute) = None /\
  CreateRoute engine "c" "h" badRoute w = (Err ErrNoAddressFound, w) /\
  DeleteRoute engine "c" badRoute w = (Err ErrNoAddressFound, w).
Proof.
  intros w. split; [reflexivity|]. split; [reflexivity|]. split; [reflexivity|].
  apply (unparseable_cidr_finds_no_address engine "c" "h" badRoute
           [external "192.0.2.7"; internal "fd00::5"; internal "10.0.0.5"] w);
    [reflexivity | reflexivity | reflexivity | reflexivity | discriminate].
Defined.

Lemma next_hop_is_first_internal_address_of_family_witness :
  let addrs := [external "192.0.2.7"; internal "fd00::5"; internal "10.0.0.5"] in
  let w := world [] [] noFault in
  let cidr := cloudprovider.DestinationCIDR route1 in
  IsIPv4 "" = false /\
  IsIPv6 "" = false /\
  getAddressesByName (compute engine) (cloudprovider.TargetNode route1) = Ok addrs /\
  ((exists pre addr post,
       addrs = pre ++ addr :: post /\
       Forall (fun a => ~ usable cidr a) pre /\
       usable cidr addr /\
       nextHopOf engine route1 = Ok (v1.Address addr) /\
       (IsIPv6 (IP_String (ParseCIDR cidr)) = false -> IsIPv4 (v1.Address addr) = true) /\
       (IsIPv4 (IP_String (ParseCIDR cidr)) = false -> IsIPv6 (v1.Address addr) = true))
   \/ (Forall (fun a => ~ usable cidr a) addrs /\
       CreateRoute engine "c" "h" route1 w = (Err ErrNoAddressFound, w) /\
       DeleteRoute engine "c" route1 w = (Err ErrNoAddressFound, w))).
Proof.
  intros addrs w cidr.
  split; [reflexivity|]. split; [reflexivity|]. split; [reflexivity|].
  apply (next_hop_is_first_internal_address_of_family engine "c" "h" route1 addrs w);
    reflexivity.
Defined.

Lemma ListRoutes_one_route_per_entry_witness :
  let w := world [entry1; entry2] [] noFault in
  listServers (compute engine) = Ok [n1] /\
  Forall (fun srv => exists addrs, addressesOf srv = Ok addrs) [n1] /\
  routers_Get (RouterID (opts engine)) w = (Ok (router1 [entry1; entry2]), tick w) /\
  exists routes,
    ListRoutes addressesOf nameOf engine "c" w = (Ok routes, tick w) /\
    Forall2 (fun item route =>
        cloudprovider.Name route = routers.DestinationCIDR item /\
        cloudprovider.DestinationCIDR route = routers.DestinationCIDR item /\
        (cloudprovider.Blackhole route = true <->
           forall srv, srv ∈ [n1] -> ~ hasAddress addressesOf srv (routers.NextHop item)) /\
        (cloudprovider.Blackhole route = true -> cloudprovider.TargetNode route = "") /\
        (cloudprovider.Blackhole route = false ->
           exists srv, srv ∈ [n1] /\
             hasAddress addressesOf srv (routers.NextHop item) /\
             cloudprovider.TargetNode route = nameOf srv))
      (routers.Routes (router1 [entry1; entry2])) routes.
Proof.
  intros w.
  assert (Hl : listServers (compute engine) = Ok [n1]) by reflexivity.
  assert (Ha : Forall (fun srv => exists addrs, addressesOf srv = Ok addrs) [n1]).
  { apply List.Forall_cons; [|apply List.Forall_nil]. eexists. reflexivity. }
  assert (Hg : routers_Get (RouterID (opts engine)) w
               = (Ok (router1 [entry1; entry2]), tick w)) by reflexivity.
  split; [exact Hl|]. split; [exact Ha|]. split; [exact Hg|].
  exact (ListRoutes_one_route_per_entry addressesOf nameOf engine "c" w [n1]
           (router1 [entry1; entry2]) (tick w) Hl Ha Hg).
Defined.

Lemma entry1_listed : entryOf route1 "10.0.0.5" ∈ [entry1; entry2].
Proof. apply list_elem_of_In. left. reflexivity. Defined.

Lemma DeleteRoute_removes_one_entry_witness :
  let w := world [entry1; entry2] [pair2; pair1] noFault in
  nextHopOf engine route1 = Ok "10.0.0.5" /\
  routers_Get (RouterID (opts engine)) w = (Ok (router1 [entry1; entry2]), tick w) /\
  entryOf route1 "10.0.0.5" ∈ [entry1; entry2] /\
  exists written o rest,
    journal (snd (DeleteRoute engine "c" route1 w))
      = journal w ++ RouterUpdate (RouterID (opts engine)) written o :: rest /\
    routers.Routes (router1 [entry1; entry2]) ≡ₚ entryOf route1 "10.0.0.5" :: written /\
    forall portID port w3,
      o = None ->
      getPortIDByIP (compute engine) (cloudprovider.TargetNode route1) "10.0.0.5" = Ok portID ->
      getPortByID portID (snd (routers_Update (RouterID (opts engine)) written (tick w)))
        = (Ok port, w3) ->
      pairOf route1 ∈ neutronports.AllowedAddressPairs port ->
      exists written' o' rest',
        rest = PortUpdate portID written' o' :: rest' /\
        neutronports.AllowedAddressPairs port ≡ₚ pairOf route1 :: written'.
Proof.
  intros w.
  assert (Hn : nextHopOf engine route1 = Ok "10.0.0.5") by reflexivity.
  assert (Hg : routers_Get (RouterID (opts engine)) w
               = (Ok (router1 [entry1; entry2]), tick w)) by reflexivity.
  split; [exact Hn|]. split; [exact Hg|]. split; [exact entry1_listed|].
  exact (DeleteRoute_removes_one_entry engine "c" route1 w "10.0.0.5"
           (router1 [entry1; entry2]) (tick w) Hn Hg entry1_listed).
Defined.

(** On the example of the last lemma the two writes carry [entry2] and
    [pair2]: the first entry and the last pair are gone. *)
Example delete_swaps_with_last :
  journal (snd (DeleteRoute engine "c" route1
                  (world [entry1; entry2] [pair2; pair1] noFault)))
  = [RouterUpdate "r1" [entry2] None; PortUpdate "p1" [pair2] None].
Proof. reflexivity. Qed.

Lemma CreateRoute_filter_write_failure_witness :
  let w := world [] [] (failAt 3 (ErrRemote 500)) in
  let run := CreateRoute engine "c" "h" route1 w in
  journal (snd run)
    = journal w ++ RouterUpdate "r1" [entry1] None
        :: PortUpdate "p1" [pair1] (Some (ErrRemote 500))
        :: [RouterUpdate "r1" [] None] /\
  fst run = Err (ErrRemote 500) /\
  exists table nexthop o,
    routerTable w !! RouterID (opts engine) = Some table /\
    "r1" = RouterID (opts engine) /\
    [entry1] = table ++ [entryOf route1 nexthop] /\
    [RouterUpdate "r1" [] None]
      = RouterUpdate "r1" table o
          :: match o with
             | None => []
             | Some e' => [Warning "Unable to reset routes during error unwind: " e']
             end /\
    routerTable (snd run)
      = match o with
        | None => routerTable w
        | Some _ => <["r1" := [entry1]]> (routerTable w)
        end /\
    portFilters (snd run) = portFilters w.
Proof.
  intros w run.
  assert (Hj : journal (snd run)
               = journal w ++ RouterUpdate "r1" [entry1] None
                   :: PortUpdate "p1" [pair1] (Some (ErrRemote 500))
                   :: [RouterUpdate "r1" [] None]) by reflexivity.
  split; [exact Hj|].
  exact (CreateRoute_filter_write_failure engine "c" "h" route1 w "r1" [entry1] "p1" [pair1]
           (ErrRemote 500) [RouterUpdate "r1" [] None] Hj).
Defined.

(** C1 as stated fails when the compensating write fails too: the route-table
    write succeeds, the filter-list write fails, and the router keeps the
    entry the call added. *)
Lemma CreateRoute_rollback_can_fail :
  let w := world [] [] (failFrom 3 (ErrRemote 500)) in
  let run := CreateRoute engine "c" "h" route1 w in
  journal (snd run)
    = journal w ++ RouterUpdate "r1" [entry1] None
        :: PortUpdate "p1" [pair1] (Some (ErrRemote 500))
        :: [ RouterUpdate "r1" [] (Some (ErrRemote 500));
             Warning "Unable to reset routes during error unwind: " (ErrRemote 500) ] /\
  fst run = Err (ErrRemote 500) /\
  routerTable w !! "r1" = Some [] /\
  routerTable (snd run) !! "r1" = Some [entry1] /\
  routerTable (snd run) !! "r1" <> routerTable w !! "r1".
Proof.
  intros w run. split; [reflexivity|]. split; [reflexivity|].
  split; [reflexivity|]. split; [reflexivity|].
  vm_compute. discriminate.
Qed.

Lemma no_entry_listed : entryOf route1 "10.0.0.5" ∈ [] -> pairOf route1 ∈ [].
Proof. intros Hin. apply list_elem_of_In in Hin. destruct Hin. Defined.

Lemma CreateRoute_idempotent_witness :
  let held := world [entry1] [pair1] noFault in
  let w := world [] [] noFault in
  let first := CreateRoute engine "c" "h" route1 w in
  let second := CreateRoute engine "c" "h" route1 (snd first) in
  nextHopOf engine route1 = Ok "10.0.0.5" /\
  (CreateRoute engine "c" "h" route1 held = (Ok tt, tick held) /\
   journal (tick held) = journal held /\
   routerTable (tick held) = routerTable held /\
   portFilters (tick held) = portFilters held) /\
  fst first = Ok tt /\
  journal (snd second) = journal (snd first) /\
  exists table' pairs',
    routerTable (snd second) !! RouterID (opts engine) = Some table' /\
    portFilters (snd second) !! "p1" = Some pairs' /\
    matching (sameRoute route1 "10.0.0.5") table' = 1 /\
    matching (samePair route1) pairs' = 1.
Proof.
  intros held w first second.
  assert (Hn : nextHopOf engine route1 = Ok "10.0.0.5") by reflexivity.
  assert (Hok : fst first = Ok tt) by reflexivity.
  destruct (CreateRoute_idempotent engine "c" "h" route1 "10.0.0.5" Hn) as [Hheld Htwice].
  split; [exact Hn|]. split.
  - apply (Hheld held (router1 [entry1]) (tick held)); [reflexivity|].
    apply list_elem_of_In. left. reflexivity.
  - split; [exact Hok|].
    apply (Htwice w "p1" [] []); [reflexivity | reflexivity | reflexivity | | | | exact Hok].
    + apply Nat.le_0_l.
    + apply Nat.le_0_l.
    + exact no_entry_listed.
Defined.

(** C3 as stated fails on a router that already has the route while the
    port has no pair for it: both calls succeed without a write and no
    filter entry exists afterwards. *)
Lemma CreateRoute_twice_without_filter_entry :
  let w := world [entry1] [] noFault in
  let first := CreateRoute engine "c" "h" route1 w in
  let second := CreateRoute engine "c" "h" route1 (snd first) in
  fst first = Ok tt /\
  fst second = Ok tt /\
  journal (snd second) = [] /\
  getPortIDByIP (compute engine) (cloudprovider.TargetNode route1) "10.0.0.5" = Ok "p1" /\
  routerTable (snd second) !! "r1" = Some [entry1] /\
  portFilters (snd second) !! "p1" = Some [] /\
  matching (samePair route1) [] <> 1.
Proof.
  intros w first second. repeat (split; [reflexivity|]). discriminate.
Qed.

(** The filter write fails with 500 and the compensation with 503: the
    caller gets 500, and 503 only reaches the journal. *)
Example compensation_error_is_not_returned :
  let run := CreateRoute engine "c" "h" route1 (world [] [] failTwice) in
  fst run = Err (ErrRemote 500) /\
  journal (snd run)
    = [ RouterUpdate "r1" [entry1] None;
        PortUpdate "p1" [pair1] (Some (ErrRemote 500));
        RouterUpdate "r1" [] (Some (ErrRemote 503));
        Warning "Unable to reset routes during error unwind: " (ErrRemote 503) ].
Proof. split; reflexivity. Qed.

(** ** The further properties on the example cloud *)

Lemma cut_keeps_the_other_places_witness :
  let s := [entry1; entry2; entry3] in
  0 < length s /\
  length (cut s (Z.of_nat 0)) = length s - 1 /\
  (forall j, j < length s - 1 -> j <> 0 -> cut s (Z.of_nat 0) !! j = s !! j) /\
  (0 < length s - 1 -> cut s (Z.of_nat 0) !! 0 = s !! (length s - 1)).
Proof.
  intros s.
  assert (Hk : 0 < length s) by (simpl; lia).
  split; [exact Hk|]. exact (cut_keeps_the_other_places s 0 Hk).
Defined.

(** Deleting the first of three entries moves the third into its place. *)
Example cut_first_of_three :
  cut [entry1; entry2; entry3] 0 = [entry3; entry2].
Proof. reflexivity. Qed.

Lemma getPortIDByIP_first_interface_witness :
  let interfaces := [nic "p0" "10.0.0.9"; nic "p1" "10.0.0.5"; nic "p3" "10.0.0.5"] in
  getServerByName cloud2 "n1" true = Ok n1 /\
  getAttachedInterfacesByID cloud2 (servers.ID n1) = Ok interfaces /\
  ((exists pre intf post,
       interfaces = pre ++ intf :: post /\
       Forall (fun i => ~ owns "10.0.0.5" i) pre /\
       owns "10.0.0.5" intf /\
       getPortIDByIP cloud2 "n1" "10.0.0.5" = Ok (attachinterfaces.PortID intf))
   \/ (Forall (fun i => ~ owns "10.0.0.5" i) interfaces /\
       getPortIDByIP cloud2 "n1" "10.0.0.5" = Err ErrNotFound)).
Proof.
  intros interfaces.
  assert (Hs : getServerByName cloud2 "n1" true = Ok n1) by reflexivity.
  assert (Hi : getAttachedInterfacesByID cloud2 (servers.ID n1) = Ok interfaces)
    by reflexivity.
  split; [exact Hs|]. split; [exact Hi|].
  exact (getPortIDByIP_first_interface cloud2 "n1" "10.0.0.5" n1 interfaces Hs Hi).
Defined.

(** The port found is that of the second interface, the first that holds
    the address. *)
Example getPortIDByIP_second_interface :
  getPortIDByIP cloud2 "n1" "10.0.0.5" = Ok "p1".
Proof. reflexivity. Qed.

Lemma updateRoutes_then_unwind_witness :
  let w := world [entry1] [] noFault in
  let router := router1 [entry1] in
  let newRoutes := [entry1; entry2] in
  routerTable w !! routers.ID router = Some (routers.Routes router) /\
  match updateRoutes router newRoutes w with
  | (Err e, w1) =>
      journal w1 = journal w ++ [RouterUpdate (routers.ID router) newRoutes (Some e)] /\
      routerTable w1 = routerTable w /\
      portFilters w1 = portFilters w
  | (Ok unwind, w1) =>
      routerTable w1 = <[routers.ID router := newRoutes]> (routerTable w) /\
      portFilters w1 = portFilters w /\
      fst (unwind w1) = Ok tt /\
      exists o,
        journal (snd (unwind w1))
          = journal w ++ RouterUpdate (routers.ID router) newRoutes None
              :: RouterUpdate (routers.ID router) (routers.Routes router) o
              :: match o with
                 | None => []
                 | Some e' => [Warning "Unable to reset routes during error unwind: " e']
                 end /\
        routerTable (snd (unwind w1))
          = match o with
            | None => routerTable w
            | Some _ => <[routers.ID router := newRoutes]> (routerTable w)
            end /\
        portFilters (snd (unwind w1)) = portFilters w
  end.
Proof.
  intros w router newRoutes.
  assert (Ht : routerTable w !! routers.ID router = Some (routers.Routes router))
    by reflexivity.
  split; [exact Ht|]. exact (updateRoutes_then_unwind router newRoutes w Ht).
Defined.

Lemma updateAllowedAddressPairs_then_unwind_witness :
  let w := world [] [pair1] (failAt 1 (ErrRemote 500)) in
  let port := port1 [pair1] in
  let newPairs := [pair1; pair2] in
  portFilters w !! neutronports.ID port = Some (neutronports.AllowedAddressPairs port) /\
  match updateAllowedAddressPairs port newPairs w with
  | (Err e, w1) =>
      journal w1 = journal w ++ [PortUpdate (neutronports.ID port) newPairs (Some e)] /\
      routerTable w1 = routerTable w /\
      portFilters w1 = portFilters w
  | (Ok unwind, w1) =>
      portFilters w1 = <[neutronports.ID port := newPairs]> (portFilters w) /\
      routerTable w1 = routerTable w /\
      fst (unwind w1) = Ok tt /\
      exists o,
        journal (snd (unwind w1))
          = journal w ++ PortUpdate (neutronports.ID port) newPairs None
              :: PortUpdate (neutronports.ID port) (neutronports.AllowedAddressPairs port) o
              :: match o with
                 | None => []
                 | Some e' =>
                     [Warning "Unable to reset allowed-address-pairs during error unwind: " e']
                 end /\
        portFilters (snd (unwind w1))
          = match o with
            | None => portFilters w
            | Some _ => <[neutronports.ID port := newPairs]> (portFilters w)
            end /\
        routerTable (snd (unwind w1)) = routerTable w
  end.
Proof.
  intros w port newPairs.
  assert (Ht : portFilters w !! neutronports.ID port
               = Some (neutronports.AllowedAddressPairs port)) by reflexivity.
  split; [exact Ht|]. exact (updateAllowedAddressPairs_then_unwind port newPairs w Ht).
Defined.

(** On that world the write succeeds and the unwinder's own write fails:
    the unwinder returns normally, the warning is journalled and the new
    pairs stay. *)
Example unwinder_of_pairs_only_warns :
  let w := world [] [pair1] (failAt 1 (ErrRemote 500)) in
  match updateAllowedAddressPairs (port1 [pair1]) [pair1; pair2] w with
  | (Ok unwind, w1) =>
      fst (unwind w1) = Ok tt /\
      journal (snd (unwind w1))
        = [ PortUpdate "p1" [pair1; pair2] None;
            PortUpdate "p1" [pair1] (Some (ErrRemote 500));
            Warning "Unable to reset allowed-address-pairs during error unwind: "
              (ErrRemote 500) ] /\
      portFilters (snd (unwind w1)) !! "p1" = Some [pair1; pair2]
  | (Err _, _) => False
  end.
Proof. vm_compute. repeat split. Qed.

Lemma CreateRoute_route_write_failure_witness :
  let w := world [] [] (failAt 1 (ErrRemote 500)) in
  let run := CreateRoute engine "c" "h" route1 w in
  journal (snd run) = journal w ++ RouterUpdate "r1" [entry1] (Some (ErrRemote 500)) :: [] /\
  fst run = Err (ErrRemote 500) /\
  [] = @nil Event /\
  routerTable (snd run) = routerTable w /\
  portFilters (snd run) = portFilters w.
Proof.
  intros w run.
  assert (Hj : journal (snd run)
               = journal w ++ RouterUpdate "r1" [entry1] (Some (ErrRemote 500)) :: [])
    by reflexivity.
  split; [exact Hj|].
  exact (CreateRoute_route_write_failure engine "c" "h" route1 w "r1" [entry1]
           (ErrRemote 500) [] Hj).
Defined.

Lemma DeleteRoute_route_write_failure_witness :
  let w := world [entry1; entry2] [pair1] (failAt 1 (ErrRemote 500)) in
  let run := DeleteRoute engine "c" route1 w in
  journal (snd run) = journal w ++ RouterUpdate "r1" [entry2] (Some (ErrRemote 500)) :: [] /\
  fst run = Err (ErrRemote 500) /\
  [] = @nil Event /\
  routerTable (snd run) = routerTable w /\
  portFilters (snd run) = portFilters w.
Proof.
  intros w run.
  assert (Hj : journal (snd run)
               = journal w ++ RouterUpdate "r1" [entry2] (Some (ErrRemote 500)) :: [])
    by reflexivity.
  split; [exact Hj|].
  exact (DeleteRoute_route_write_failure engine "c" route1 w "r1" [entry2]
           (ErrRemote 500) [] Hj).
Defined.

Lemma other_port_than_p2 nexthop :
  nextHopOf engine route1 = Ok nexthop ->
  getPortIDByIP (compute engine) (cloudprovider.TargetNode route1) nexthop <> Ok "p2".
Proof.
  intros Hn. vm_compute in Hn. injection Hn as <-. vm_compute. discriminate.
Defined.

Lemma route_operations_touch_one_router_and_one_port_witness :
  let w := world [] [] noFault in
  "r2" <> RouterID (opts engine) /\
  routerTable (snd (CreateRoute engine "c" "h" route1 w)) !! "r2" = routerTable w !! "r2" /\
  portFilters (snd (CreateRoute engine "c" "h" route1 w)) !! "p2" = portFilters w !! "p2" /\
  routerTable (snd (DeleteRoute engine "c" route1 w)) !! "r2" = routerTable w !! "r2" /\
  portFilters (snd (DeleteRoute engine "c" route1 w)) !! "p2" = portFilters w !! "p2".
Proof.
  intros w.
  assert (Hid : "r2" <> RouterID (opts engine)) by (vm_compute; discriminate).
  split; [exact Hid|].
  exact (route_operations_touch_one_router_and_one_port engine "c" "h" route1 w "r2" "p2"
           Hid other_port_than_p2).
Defined.

Lemma CreateRoute_success_witness :
  let w := world [] [] noFault in
  let run := CreateRoute engine "c" "h" route1 w in
  fst run = Ok tt /\
  exists nexthop table' evs,
    nextHopOf engine route1 = Ok nexthop /\
    routerTable (snd run) !! RouterID (opts engine) = Some table' /\
    entryOf route1 nexthop ∈ table' /\
    journal (snd run) = journal w ++ evs /\
    Forall succeeded evs /\
    (evs <> [] ->
     exists pid pairs',
       getPortIDByIP (compute engine) (cloudprovider.TargetNode route1) nexthop = Ok pid /\
       portFilters (snd run) !! pid = Some pairs' /\
       pairOf route1 ∈ pairs').
Proof.
  intros w run.
  assert (Hok : fst run = Ok tt) by reflexivity.
  split; [exact Hok|]. exact (CreateRoute_success engine "c" "h" route1 w Hok).
Defined.

Lemma DeleteRoute_success_witness :
  let w := world [entry1; entry2] [pair2; pair1] noFault in
  let run := DeleteRoute engine "c" route1 w in
  let table := [entry1; entry2] in
  routerTable w !! RouterID (opts engine) = Some table /\
  fst run = Ok tt /\
  exists nexthop table',
    nextHopOf engine route1 = Ok nexthop /\
    routerTable (snd run) !! RouterID (opts engine) = Some table' /\
    matching (sameRoute route1 nexthop) table'
      = matching (sameRoute route1 nexthop) table - 1 /\
    (entryOf route1 nexthop ∉ table ->
     table' = table /\ journal (snd run) = journal w) /\
    (entryOf route1 nexthop ∈ table ->
     table ≡ₚ entryOf route1 nexthop :: table' /\
     exists pid pairs pairs',
       getPortIDByIP (compute engine) (cloudprovider.TargetNode route1) nexthop = Ok pid /\
       portFilters w !! pid = Some pairs /\
       portFilters (snd run) !! pid = Some pairs' /\
       matching (samePair route1) pairs' = matching (samePair route1) pairs - 1).
Proof.
  intros w run table.
  assert (Ht : routerTable w !! RouterID (opts engine) = Some table) by reflexivity.
  assert (Hok : fst run = Ok tt) by reflexivity.
  split; [exact Ht|]. split; [exact Hok|].
  exact (DeleteRoute_success engine "c" route1 w table Ht Hok).
Defined.

Lemma CreateRoute_then_DeleteRoute_witness :
  let w := world [entry2] [pair2] noFault in
  let created := CreateRoute engine "c" "h" route1 w in
  let deleted := DeleteRoute engine "c" route1 (snd created) in
  nextHopOf engine route1 = Ok "10.0.0.5" /\
  getPortIDByIP (compute engine) (cloudprovider.TargetNode route1) "10.0.0.5" = Ok "p1" /\
  routerTable w !! RouterID (opts engine) = Some [entry2] /\
  portFilters w !! "p1" = Some [pair2] /\
  fst created = Ok tt /\
  fst deleted = Ok tt /\
  routerTable (snd deleted) = routerTable w /\
  portFilters (snd deleted) = portFilters w.
Proof.
  intros w created deleted.
  assert (Hn : nextHopOf engine route1 = Ok "10.0.0.5") by reflexivity.
  assert (Hp : getPortIDByIP (compute engine) (cloudprovider.TargetNode route1) "10.0.0.5"
               = Ok "p1") by reflexivity.
  assert (Ht : routerTable w !! RouterID (opts engine) = Some [entry2]) by reflexivity.
  assert (Hf : portFilters w !! "p1" = Some [pair2]) by reflexivity.
  assert (Hc : fst created = Ok tt) by reflexivity.
  assert (Hd : fst deleted = Ok tt) by reflexivity.
  assert (Hout' : pairOf route1 ∉ [pair2]).
  { intros Hin. apply list_elem_of_In in Hin. destruct Hin as [E|[]]. discriminate E. }
  split_and!; try assumption.
  - apply (CreateRoute_then_DeleteRoute engine "c" "h" route1 w "10.0.0.5" "p1"
             [entry2] [pair2] Hn Hp Ht Hf entry1_not_entry2 Hout' Hc Hd).
  - apply (CreateRoute_then_DeleteRoute engine "c" "h" route1 w "10.0.0.5" "p1"
             [entry2] [pair2] Hn Hp Ht Hf entry1_not_entry2 Hout' Hc Hd).
Defined.

Lemma filter_write_commits_witness :
  let w := world [] [] noFault in
  let created := [RouterUpdate "r1" [entry1] None; PortUpdate "p1" [pair1] None] in
  let deleted := @nil Event in
  journal (snd (CreateRoute engine "c" "h" route1 w)) = journal w ++ created /\
  journal (snd (DeleteRoute engine "c" route1 w)) = journal w ++ deleted /\
  (matching isPortUpdate created <= 1 /\
   forall pid ps, PortUpdate pid ps None ∈ created ->
     fst (CreateRoute engine "c" "h" route1 w) = Ok tt /\ Forall succeeded created) /\
  (matching isPortUpdate deleted <= 1 /\
   forall pid ps, PortUpdate pid ps None ∈ deleted ->
     fst (DeleteRoute engine "c" route1 w) = Ok tt /\ Forall succeeded deleted).
Proof.
  intros w created deleted.
  assert (Hc : journal (snd (CreateRoute engine "c" "h" route1 w)) = journal w ++ created)
    by reflexivity.
  assert (Hd : journal (snd (DeleteRoute engine "c" route1 w)) = journal w ++ deleted)
    by reflexivity.
  split; [exact Hc|]. split; [exact Hd|].
  exact (filter_write_commits engine "c" "h" route1 w created deleted Hc Hd).
Defined.

Lemma DeleteRoute_rollback_payload_witness :
  let w := world [entry1; entry2] [pair1] (failAt 2 (ErrRemote 500)) in
  let run := DeleteRoute engine "c" route1 w in
  let rest := [RouterUpdate "r1" [entry2; entry2] None] in
  journal (snd run) = journal w ++ RouterUpdate (RouterID (opts engine)) [entry2] None :: rest /\
  RouterUpdate "r1" [entry2; entry2] None ∈ rest /\
  exists nexthop table k,
    nextHopOf engine route1 = Ok nexthop /\
    routerTable w !! RouterID (opts engine) = Some table /\
    table !! k = Some (entryOf route1 nexthop) /\
    [entry2] = cut table (Z.of_nat k) /\
    "r1" = RouterID (opts engine) /\
    [entry2; entry2] = stored table (Z.of_nat k) /\
    ([entry2; entry2] = table <-> table !! (length table - 1) = Some (entryOf route1 nexthop)) /\
    exists e, fst run = Err e.
Proof.
  intros w run rest.
  assert (Hj : journal (snd run)
               = journal w ++ RouterUpdate (RouterID (opts engine)) [entry2] None :: rest)
    by reflexivity.
  assert (Hin : RouterUpdate "r1" [entry2; entry2] None ∈ rest).
  { apply list_elem_of_In. left. reflexivity. }
  split; [exact Hj|]. split; [exact Hin|].
  exact (DeleteRoute_rollback_payload engine "c" route1 w [entry2] rest "r1"
           [entry2; entry2] None Hj Hin).
Defined.

Lemma ListRoutes_first_unreadable_server_witness :
  let w := world [entry1] [] noFault in
  listServers (compute engine2) = Ok ([n1] ++ n2 :: []) /\
  Forall (fun s => exists addrs, addressesUnlessN2 s = Ok addrs) [n1] /\
  addressesUnlessN2 n2 = Err ErrNotFound /\
  ListRoutes addressesUnlessN2 nameOf engine2 "c" w = (Err ErrNotFound, w).
Proof.
  intros w.
  assert (Hl : listServers (compute engine2) = Ok ([n1] ++ n2 :: [])) by reflexivity.
  assert (Hpre : Forall (fun s => exists addrs, addressesUnlessN2 s = Ok addrs) [n1]).
  { apply List.Forall_cons; [|apply List.Forall_nil]. eexists. reflexivity. }
  assert (Hs : addressesUnlessN2 n2 = Err ErrNotFound) by reflexivity.
  split; [exact Hl|]. split; [exact Hpre|]. split; [exact Hs|].
  exact (ListRoutes_first_unreadable_server addressesUnlessN2 nameOf engine2 "c" w
           [n1] n2 [] ErrNotFound Hl Hpre Hs).
Defined.

Lemma ListRoutes_last_server_names_the_target_witness :
  let w := world [entry1; entry2] [] noFault in
  listServers (compute engine2) = Ok ([n1] ++ n2 :: []) /\
  routers_Get (RouterID (opts engine2)) w = (Ok (router1 [entry1; entry2]), tick w) /\
  hasAddress addressesOf n2 (routers.NextHop entry1) /\
  exists routes,
    ListRoutes addressesOf nameOf engine2 "c" w = (Ok routes, tick w) /\
    routes !! 0 =
      Some {| cloudprovider.Name := routers.DestinationCIDR entry1;
              cloudprovider.TargetNode := nameOf n2;
              cloudprovider.Blackhole := false;
              cloudprovider.DestinationCIDR := routers.DestinationCIDR entry1 |}.
Proof.
  intros w.
  assert (Hl : listServers (compute engine2) = Ok ([n1] ++ n2 :: [])) by reflexivity.
  assert (Ha : Forall (fun s => exists addrs, addressesOf s = Ok addrs) ([n1] ++ n2 :: [])).
  { repeat (apply List.Forall_cons; [eexists; reflexivity|]). apply List.Forall_nil. }
  assert (Hg : routers_Get (RouterID (opts engine2)) w
               = (Ok (router1 [entry1; entry2]), tick w)) by reflexivity.
  assert (Hi : routers.Routes (router1 [entry1; entry2]) !! 0 = Some entry1) by reflexivity.
  assert (Hh : hasAddress addressesOf n2 (routers.NextHop entry1)).
  { exists [internal "10.0.0.5"], (internal "10.0.0.5").
    split; [reflexivity|]. split; [|reflexivity]. apply list_elem_of_In. left. reflexivity. }
  assert (Hpost : forall s, s ∈ [] -> ~ hasAddress addressesOf s (routers.NextHop entry1)).
  { intros s Hin. apply list_elem_of_In in Hin. destruct Hin. }
  split; [exact Hl|]. split; [exact Hg|]. split; [exact Hh|].
  exact (ListRoutes_last_server_names_the_target addressesOf nameOf engine2 "c" w
           [n1] n2 [] (router1 [entry1; entry2]) (tick w) 0 entry1 Hl Ha Hg Hi Hh Hpost).
Defined.

Lemma DeleteRoute_twice_witness :
  let w := world [entry1; entry2] [pair2; pair1] noFault in
  let first := DeleteRoute engine "c" route1 w in
  let second := DeleteRoute engine "c" route1 (snd first) in
  nextHopOf engine route1 = Ok "10.0.0.5" /\
  routerTable w !! RouterID (opts engine) = Some [entry1; entry2] /\
  matching (sameRoute route1 "10.0.0.5") [entry1; entry2] <= 1 /\
  fst first = Ok tt /\
  journal (snd second) = journal (snd first) /\
  routerTable (snd second) = routerTable (snd first) /\
  portFilters (snd second) = portFilters (snd first) /\
  (fst second = Ok tt \/
   exists e, fst second = Err e /\
     fst (routers_Get (RouterID (opts engine)) (snd first)) = Err e).
Proof.
  intros w first second.
  assert (Hn : nextHopOf engine route1 = Ok "10.0.0.5") by reflexivity.
  assert (Ht : routerTable w !! RouterID (opts engine) = Some [entry1; entry2])
    by reflexivity.
  assert (Hone : matching (sameRoute route1 "10.0.0.5") [entry1; entry2] <= 1)
    by (vm_compute; lia).
  assert (Hok : fst first = Ok tt) by reflexivity.
  split; [exact Hn|]. split; [exact Ht|]. split; [exact Hone|]. split; [exact Hok|].
  exact (DeleteRoute_twice engine "c" route1 w "10.0.0.5" [entry1; entry2] Hn Ht Hone Hok).
Defined.

Lemma CreateRoute_rollback_payload_witness :
  let w := world [entry2] [] (failAt 2 (ErrRemote 500)) in
  let run := CreateRoute engine "c" "h" route1 w in
  let rest := [RouterUpdate "r1" [entry2] None] in
  journal (snd run)
    = journal w ++ RouterUpdate (RouterID (opts engine)) [entry2; entry1] None :: rest /\
  RouterUpdate "r1" [entry2] None ∈ rest /\
  exists nexthop table,
    nextHopOf engine route1 = Ok nexthop /\
    routerTable w !! RouterID (opts engine) = Some table /\
    [entry2; entry1] = table ++ [entryOf route1 nexthop] /\
    "r1" = RouterID (opts engine) /\
    [entry2] = table /\
    (exists e, fst run = Err e) /\
    portFilters (snd run) = portFilters w /\
    (@None error = None -> routerTable (snd run) = routerTable w).
Proof.
  intros w run rest.
  assert (Hj : journal (snd run)
               = journal w ++ RouterUpdate (RouterID (opts engine)) [entry2; entry1] None
                   :: rest) by reflexivity.
  assert (Hin : RouterUpdate "r1" [entry2] None ∈ rest).
  { apply list_elem_of_In. left. reflexivity. }
  split; [exact Hj|]. split; [exact Hin|].
  exact (CreateRoute_rollback_payload engine "c" "h" route1 w [entry2; entry1] rest "r1"
           [entry2] None Hj Hin).
Defined.
